(** * cplxmodule.signal: modulus gain layers over complex tensors

    A shallow embedding of [src/cplxmodule/signal.py]:
    [CplxMultichannelGainLayer] and [CplxProjectionGainLayer].

    Tensors are contiguous, row-major: a shape (list of dimension sizes)
    and the flat list of the elements.  The tensor framework's operations
    used by the two [forward] methods ([reshape] with one inferred
    dimension, [unsqueeze(-2)], broadcasting [*], [cat(dim=-1)]) are
    modelled on that representation together with the exceptions they
    raise.  Scalars are abstract: a type with the elementwise product,
    the unit and the complex modulus. *)

From Stdlib Require Import String Ascii DecimalString Bool Arith ZArith Lia List.
Import ListNotations.
Local Open Scope string_scope.
Local Open Scope list_scope.
Local Open Scope nat_scope.

Set Implicit Arguments.

(** ** Exceptions and results *)

Inductive exn : Type :=
| ValueError (msg : string)
| RuntimeError (msg : string)
| IndexError (msg : string)
| AssertionError.

Inductive res (A : Type) : Type :=
| Ok (a : A)
| Raise (e : exn).
Arguments Ok {A} a.
Arguments Raise {A} e.

Definition rbind {A B} (r : res A) (k : A -> res B) : res B :=
  match r with
  | Ok a => k a
  | Raise e => Raise e
  end.

(** [try: body except RuntimeError as e: handler e] *)
Definition try_except_RuntimeError {A} (body : res A) (handler : string -> res A)
  : res A :=
  match body with
  | Raise (RuntimeError m) => handler m
  | r => r
  end.

Declare Scope res_scope.
Delimit Scope res_scope with res.
Notation "x <- c ;; k" := (rbind c (fun x => k))
  (at level 61, c at next level, right associativity) : res_scope.
Notation "' p <- c ;; k" := (rbind c (fun x => let p := x in k))
  (at level 61, p pattern, c at next level, right associativity) : res_scope.

(** ** Scalars *)

Class Scalar (R : Type) : Type := {
  smul : R -> R -> R;
  sone : R;
  smodulus : R -> R -> R
}.

(** ** Shapes *)

Definition prod (sh : list nat) : nat := fold_right Nat.mul 1 sh.

(** An argument of [reshape]: a size, or [-1] (to be inferred). *)
Inductive dim : Type :=
| Size (n : nat)
| Infer.

Fixpoint known_size (spec : list dim) : nat :=
  match spec with
  | [] => 1
  | Size n :: spec' => n * known_size spec'
  | Infer :: spec' => known_size spec'
  end.

Fixpoint count_infer (spec : list dim) : nat :=
  match spec with
  | [] => 0
  | Size _ :: spec' => count_infer spec'
  | Infer :: spec' => S (count_infer spec')
  end.

Definition fill_infer (c : nat) (spec : list dim) : list nat :=
  map (fun d => match d with Size n => n | Infer => c end) spec.

(** The framework's size inference for [reshape]/[view]: with one [-1],
    the known sizes must have a positive product dividing the element
    count; nothing is inferred against a product of zero. *)
Definition infer_size (spec : list dim) (numel : nat) : res (list nat) :=
  let newsize := known_size spec in
  match count_infer spec with
  | 0 =>
      if numel =? newsize then Ok (fill_infer 0 spec)
      else Raise (RuntimeError "shape is invalid for input size")
  | 1 =>
      if (numel =? newsize) || ((0 <? newsize) && (numel mod newsize =? 0)) then
        if newsize =? 0 then
          Raise (RuntimeError "cannot reshape tensor of 0 elements: the unspecified dimension size -1 can be any value and is ambiguous")
        else Ok (fill_infer (numel / newsize) spec)
      else Raise (RuntimeError "shape is invalid for input size")
  | _ => Raise (RuntimeError "only one dimension can be inferred")
  end.

(** [*head, n_features = shape] *)
Definition unpack_last (sh : list nat) : res (list nat * nat) :=
  match rev sh with
  | [] => Raise (ValueError "not enough values to unpack (expected at least 1, got 0)")
  | n :: h => Ok (rev h, n)
  end.

(** ** Formatting, as the f-string of the error message does it *)

Definition str_nat (n : nat) : string := NilEmpty.string_of_uint (Nat.to_uint n).

Fixpoint join_comma (l : list nat) : string :=
  match l with
  | [] => ""
  | [a] => str_nat a
  | a :: l' => (str_nat a ++ ", " ++ join_comma l')%string
  end.

(** [str] of a tuple of ints: [()], [(6,)], [(3, 2)]. *)
Definition str_tuple (l : list nat) : string :=
  match l with
  | [] => "()"
  | [a] => ("(" ++ str_nat a ++ ",)")%string
  | _ => ("(" ++ join_comma l ++ ")")%string
  end.

(** ** Tensors *)

Section Tensors.

Context {R : Type} `{Scalar R}.

Record Tensor : Type := mkTensor {
  shape : list nat;
  data : list R
}.

Definition numel (t : Tensor) : nat := prod (shape t).

(** A tensor holds as many elements as its shape says. *)
Definition wf (t : Tensor) : Prop := length (data t) = numel t.

Definition reshape (t : Tensor) (spec : list dim) : res Tensor :=
  (sh <- infer_size spec (numel t) ;;
   Ok (mkTensor sh (data t)))%res.

(** [t.unsqueeze(-2)]: a new axis of size one before the last one. *)
Definition unsqueeze_m2 (t : Tensor) : res Tensor :=
  match shape t with
  | [] => Raise (IndexError "Dimension out of range (expected to be in range of [-1, 0], but got -2)")
  | sh =>
      let k := length sh - 1 in
      Ok (mkTensor (firstn k sh ++ 1 :: skipn k sh) (data t))
  end.

(** *** Broadcasting *)

Definition pad_shape (r : nat) (sh : list nat) : list nat :=
  repeat 1 (r - length sh) ++ sh.

Fixpoint broadcast_shapes (sa sb : list nat) : option (list nat) :=
  match sa, sb with
  | [], [] => Some []
  | a :: sa', b :: sb' =>
      match broadcast_shapes sa' sb' with
      | Some s =>
          if a =? b then Some (a :: s)
          else if a =? 1 then Some (b :: s)
          else if b =? 1 then Some (a :: s)
          else None
      | None => None
      end
  | _, _ => None
  end.

Definition slice (off len : nat) (l : list R) : list R :=
  firstn len (skipn off l).

(** Elementwise [f] over two operands of equal rank; an axis of size one
    is read with stride zero. *)
Fixpoint bcast_data (f : R -> R -> R) (sa sb : list nat) (da db : list R)
  : list R :=
  match sa, sb with
  | a :: sa', b :: sb' =>
      let ka := prod sa' in
      let kb := prod sb' in
      flat_map
        (fun i =>
           bcast_data f sa' sb'
             (slice (if a =? 1 then 0 else i * ka) ka da)
             (slice (if b =? 1 then 0 else i * kb) kb db))
        (seq 0 (if a =? 1 then b else a))
  | _, _ =>
      match da, db with
      | x :: _, y :: _ => [f x y]
      | _, _ => []
      end
  end.

Definition broadcast_op (f : R -> R -> R) (a b : Tensor) : res Tensor :=
  let r := Nat.max (length (shape a)) (length (shape b)) in
  let sa := pad_shape r (shape a) in
  let sb := pad_shape r (shape b) in
  match broadcast_shapes sa sb with
  | Some s => Ok (mkTensor s (bcast_data f sa sb (data a) (data b)))
  | None => Raise (RuntimeError "The size of tensor a must match the size of tensor b")
  end.

(** [a * b] *)
Definition tmul (a b : Tensor) : res Tensor := broadcast_op smul a b.

(** *** Concatenation along the last axis *)

Fixpoint shape_eqb (s1 s2 : list nat) : bool :=
  match s1, s2 with
  | [], [] => true
  | a :: s1', b :: s2' => (a =? b) && shape_eqb s1' s2'
  | _, _ => false
  end.

Definition skipped_by_cat (t : Tensor) : bool := shape_eqb (shape t) [0].

(** [torch.cat([a, b], dim=-1)].  The operands agree on every axis but
    the last; a one-dimensional empty operand is skipped. *)
Definition cat_last (a b : Tensor) : res Tensor :=
  match shape a, shape b with
  | [], _ | _, [] =>
      Raise (RuntimeError "zero-dimensional tensor cannot be concatenated")
  | _, _ =>
      if skipped_by_cat a then Ok b
      else if skipped_by_cat b then Ok a
      else
        let ha := removelast (shape a) in
        let na := last (shape a) 0 in
        let nb := last (shape b) 0 in
        if shape_eqb ha (removelast (shape b)) then
          Ok (mkTensor (ha ++ [na + nb])
                (flat_map
                   (fun i => slice (i * na) na (data a) ++ slice (i * nb) nb (data b))
                   (seq 0 (prod ha))))
        else
          Raise (RuntimeError "Sizes of tensors must match except in dimension -1")
  end.

(** *** Reading one element *)

Fixpoint in_bounds (sh ix : list nat) : bool :=
  match sh, ix with
  | [], [] => true
  | d :: sh', i :: ix' => (i <? d) && in_bounds sh' ix'
  | _, _ => false
  end.

(** Row-major offset of a multi-index. *)
Fixpoint ravel (sh ix : list nat) : nat :=
  match sh, ix with
  | _ :: sh', i :: ix' => i * prod sh' + ravel sh' ix'
  | _, _ => 0
  end.

(** [t[ix]] *)
Definition tget (t : Tensor) (ix : list nat) : option R :=
  if in_bounds (shape t) ix then nth_error (data t) (ravel (shape t) ix)
  else None.

(** The index at which an operand of shape [sh] is read when the
    broadcast result is read at [ix]: zero along an axis of size one. *)
Fixpoint bidx (sh ix : list nat) : list nat :=
  match sh, ix with
  | d :: sh', i :: ix' => (if d =? 1 then 0 else i) :: bidx sh' ix'
  | _, _ => []
  end.

(** *** Complex tensors *)

Definition CplxTensor : Type := (Tensor * Tensor)%type.

(** Modelled from the spec: [cplx_modulus] of module [.cplx], which is
    not part of the sources at hand; the spec gives
    [modulus = sqrt(real^2 + imag^2)], elementwise over the pair. *)
Definition cplx_modulus (input : CplxTensor) : res Tensor :=
  let '(re, im) := input in
  broadcast_op smodulus re im.

(** [c] is [a] followed by [b] along the last axis, under each index
    [hs] of the leading axes [head]. *)
Definition concat_of (head : list nat) (na nb : nat) (a b c : Tensor) : Prop :=
  shape c = head ++ [na + nb] /\
  forall hs, in_bounds head hs = true ->
    (forall k, k < na -> tget c (hs ++ [k]) = tget a (hs ++ [k])) /\
    (forall j, j < nb -> tget c (hs ++ [na + j]) = tget b (hs ++ [j])).

(** The invariant of a complex tensor: both parts have the one shape. *)
Definition has_shape (input : CplxTensor) (sh : list nat) : Prop :=
  shape (fst input) = sh /\ shape (snd input) = sh.

Definition cplx_wf (input : CplxTensor) : Prop :=
  wf (fst input) /\ wf (snd input).

End Tensors.

Arguments Tensor R : clear implicits.
Arguments CplxTensor R : clear implicits.

(** ** Methods: computations over the attributes of [self] *)

Definition method (S A : Type) : Type := S -> res A * S.

Definition mret {S A} (a : A) : method S A := fun s => (Ok a, s).

Definition mraise {S A} (e : exn) : method S A := fun s => (Raise e, s).

Definition mbind {S A B} (m : method S A) (k : A -> method S B) : method S B :=
  fun s =>
    match m s with
    | (Ok a, s') => k a s'
    | (Raise e, s') => (Raise e, s')
    end.

(** [self.f] *)
Definition attr {S A} (f : S -> A) : method S A := fun s => (Ok (f s), s).

(** A call that does not touch [self]. *)
Definition call {S A} (r : res A) : method S A := fun s => (r, s).

(** What a method returns (or raises), and [self] after the call. *)
Definition result {S A} (m : method S A) (self : S) : res A := fst (m self).
Definition after {S A} (m : method S A) (self : S) : S := snd (m self).

(** A method that leaves the attributes of [self] as they were. *)
Definition keeps_self {S A} (m : method S A) : Prop :=
  forall self, after m self = self.

Declare Scope method_scope.
Delimit Scope method_scope with method.
Notation "x <- c ;; k" := (mbind c (fun x => k))
  (at level 61, c at next level, right associativity) : method_scope.
Notation "' p <- c ;; k" := (mbind c (fun x => let p := x in k))
  (at level 61, p pattern, c at next level, right associativity) : method_scope.

(** ** [CplxMultichannelGainLayer] *)

Module CplxMultichannelGainLayer.
Section Layer.

Context {R : Type} `{Scalar R}.

Record t : Type := mk {
  gain : Tensor R -> res (Tensor R);
  flatten : bool
}.

(** [__init__(self, gain, flatten=False)] *)
Definition init (gain : Tensor R -> res (Tensor R)) (flatten : bool) : t :=
  mk gain flatten.

Definition incompatible_msg (tail : list nat) (n_features : nat) : string :=
  ("`gain` " ++ str_tuple tail ++ " is incompatible with the "
   ++ "input complex tensor " ++ str_nat n_features ++ ".")%string.

Definition forward (input : CplxTensor R) : method t (CplxTensor R) :=
  (let '(re, im) := input in
   (* compute the modulus gain *)
   self_gain <- attr gain ;;
   modulus <- call (cplx_modulus input) ;;
   gain <- call (self_gain modulus) ;;
   (* reshape gain `... x C x n_in` and (re, im) `... x 1 x n_in` *)
   '(head, n_features) <- call (unpack_last (shape re)) ;;
   gain <- call (try_except_RuntimeError
                   (reshape gain (map Size head ++ [Infer; Size n_features]))
                   (fun _ =>
                      let tail := skipn (length head) (shape gain) in
                      Raise (ValueError (incompatible_msg tail n_features)))) ;;
   (* apply the gain *)
   re <- call (unsqueeze_m2 re) ;;
   im <- call (unsqueeze_m2 im) ;;
   re <- call (tmul gain re) ;;
   im <- call (tmul gain im) ;;
   self_flatten <- attr flatten ;;
   if self_flatten then
     re <- call (reshape re (map Size head ++ [Infer])) ;;
     im <- call (reshape im (map Size head ++ [Infer])) ;;
     mret (re, im)
   else mret (re, im))%method.

(** *** What the statements about [forward] speak of *)

(** A gain function with [C] channels: on a modulus of shape
    [head ++ [n]] it returns [C * n] elements per head position. *)
Definition gain_channels (gain : Tensor R -> res (Tensor R))
    (head : list nat) (n C : nat) : Prop :=
  forall m, shape m = head ++ [n] -> wf m ->
    exists g, gain m = Ok g /\ wf g /\ numel g = prod head * (C * n).

(** A gain function returns tensors that hold what their shape says. *)
Definition gain_wf (gain : Tensor R -> res (Tensor R)) : Prop :=
  forall m g, wf m -> gain m = Ok g -> wf g.

(** A gain function that returns ones, [C * n] per head position. *)
Definition gain_ones (gain : Tensor R -> res (Tensor R))
    (head : list nat) (n C : nat) : Prop :=
  forall m, shape m = head ++ [n] -> wf m ->
    exists g, gain m = Ok g /\ numel g = prod head * (C * n) /\
              data g = repeat sone (prod head * (C * n)).

(** [forward] returns parts of shape [head ++ [C; n]], and of shape
    [head ++ [C * n]] when flattening. *)
Definition returns_shapes (gain : Tensor R -> res (Tensor R))
    (input : CplxTensor R) (head : list nat) (C n : nat) : Prop :=
  (exists re im,
      result (forward input) (init gain false) = Ok (re, im) /\
      shape re = head ++ [C; n] /\ shape im = head ++ [C; n]) /\
  (exists re im,
      result (forward input) (init gain true) = Ok (re, im) /\
      shape re = head ++ [C * n] /\ shape im = head ++ [C * n]).

(** [out] is [input] repeated [C] times along a channel axis inserted
    before the last one. *)
Definition repeats_input (input out : CplxTensor R)
    (head : list nat) (C n : nat) : Prop :=
  has_shape out (head ++ [C; n]) /\ cplx_wf out /\
  forall hs c j, in_bounds head hs = true -> c < C -> j < n ->
    tget (fst out) (hs ++ [c; j]) = tget (fst input) (hs ++ [j]) /\
    tget (snd out) (hs ++ [c; j]) = tget (snd input) (hs ++ [j]).

Definition returns_repeated_input (gain : Tensor R -> res (Tensor R))
    (input : CplxTensor R) (head : list nat) (C n : nat) : Prop :=
  exists out,
    result (forward input) (init gain false) = Ok out /\
    repeats_input input out head C n.

(** [flat] is [stacked] with its single channel axis merged away: the
    same elements, one [reshape] apart in either direction. *)
Definition one_reshape_apart (head : list nat) (n : nat)
    (stacked flat : Tensor R) : Prop :=
  shape stacked = head ++ [1; n] /\ shape flat = head ++ [n] /\
  data flat = data stacked /\
  reshape stacked (map Size head ++ [Infer]) = Ok flat /\
  reshape flat (map Size head ++ [Size 1; Size n]) = Ok stacked.

(** [flat] is [stacked] with its [C] channels merged into the last
    axis: the same elements, one [reshape] apart in either direction. *)
Definition channels_merged (head : list nat) (C n : nat)
    (stacked flat : Tensor R) : Prop :=
  shape stacked = head ++ [C; n] /\ shape flat = head ++ [C * n] /\
  data flat = data stacked /\
  reshape stacked (map Size head ++ [Infer]) = Ok flat /\
  reshape flat (map Size head ++ [Size C; Size n]) = Ok stacked.

(** The shape-mismatch error of [forward]. *)
Definition raises_incompatible (self : t) (input : CplxTensor R)
    (head : list nat) (n : nat) (g : Tensor R) : Prop :=
  result (forward input) self
  = Raise (ValueError (incompatible_msg (skipn (length head) (shape g)) n)).

End Layer.
Arguments t R : clear implicits.
End CplxMultichannelGainLayer.

(** [sub] occurs in [s]. *)
Definition contains (sub s : string) : Prop :=
  exists pre post, s = (pre ++ sub ++ post)%string.

(** [k] elements can be cut into rows of [q]: the test of [reshape] for
    the one size it infers, a positive product of the known sizes that
    leaves no remainder. *)
Definition divides_elements (q k : nat) : Prop := 0 < q /\ k mod q = 0.

(** Two complex scalars, as pairs (real, imaginary), have the same
    phase: they are multiples of one another by factors that [pos]
    holds of (the positive scalars). *)
Definition same_phase {R : Type} `{Scalar R} (pos : R -> Prop)
    (z w : R * R) : Prop :=
  exists a b, pos a /\ pos b /\
    smul a (fst w) = smul b (fst z) /\ smul a (snd w) = smul b (snd z).

(** ** [CplxProjectionGainLayer] *)

Module CplxProjectionGainLayer.
Section Layer.

Context {R : Type} `{Scalar R}.

(** The projection collaborators, what calling one does, and the
    capability check [is_cplx_to_cplx] of module [.utils]. *)
Variables (P Out : Type).
Variable is_cplx_to_cplx : P -> bool.
Variable apply_projection : P -> CplxTensor R -> res Out.

Record t : Type := mk {
  super : CplxMultichannelGainLayer.t R;
  projection : P
}.

(** [super().m(...)]: run a method of the base class on [self]. *)
Definition via_super {A} (m : method (CplxMultichannelGainLayer.t R) A)
  : method t A :=
  fun self =>
    let '(r, base) := m (super self) in
    (r, mk base (projection self)).

(** [__init__(self, gain, projection)] *)
Definition init (gain : Tensor R -> res (Tensor R)) (projection : P) : res t :=
  let base := CplxMultichannelGainLayer.init gain true in
  if is_cplx_to_cplx projection then Ok (mk base projection)
  else Raise AssertionError.

Definition forward (input : CplxTensor R) : method t Out :=
  (let '(re_z, im_z) := input in
   '(re_g, im_g) <- via_super (CplxMultichannelGainLayer.forward input) ;;
   (* concatenate and project *)
   re <- call (cat_last re_g re_z) ;;
   im <- call (cat_last im_g im_z) ;;
   self_projection <- attr projection ;;
   call (apply_projection self_projection (re, im)))%method.

End Layer.
End CplxProjectionGainLayer.

(** ** Integer scalars, for concrete runs *)

#[export] Instance Scalar_Z : Scalar Z := {
  smul := Z.mul;
  sone := 1%Z;
  smodulus := fun re im => Z.sqrt (re * re + im * im)
}.

(** ** Concrete collaborators and inputs *)

Module Examples.

(** A gain that is one everywhere, with [C] channels:
    [... x n] to [... x (C * n)]. *)
Definition ones_gain (C : nat) (m : Tensor Z) : res (Tensor Z) :=
  let sh := removelast (shape m) ++ [C * last (shape m) 0] in
  Ok (mkTensor sh (repeat 1%Z (prod sh))).

(** A gain with [C] channels whose values all differ: 1, 2, 3, ... in
    row-major order. *)
Definition ramp_gain (C : nat) (m : Tensor Z) : res (Tensor Z) :=
  let sh := removelast (shape m) ++ [C * last (shape m) 0] in
  Ok (mkTensor sh (map Z.of_nat (seq 1 (prod sh)))).

(** A gain whose output has the element count of two rows of three but
    is laid out as three rows of two. *)
Definition transposed_gain (_ : Tensor Z) : res (Tensor Z) :=
  Ok (mkTensor [3; 2] [1; 2; 3; 4; 5; 6]%Z).

(** A gain with five outputs for three features. *)
Definition five_gain (_ : Tensor Z) : res (Tensor Z) :=
  Ok (mkTensor [5] [1; 2; 3; 4; 5]%Z).

(** Projections as functions, with a capability check that accepts
    every one of them and one that rejects them all. *)
Definition projection_fn : Type := CplxTensor Z -> res (CplxTensor Z).
Definition passes (_ : projection_fn) : bool := true.
Definition fails (_ : projection_fn) : bool := false.
Definition apply_fn (p : projection_fn) (z : CplxTensor Z) := p z.
Definition identity_projection : projection_fn := fun z => Ok z.

Definition vec (l : list Z) : Tensor Z := mkTensor [length l] l.

(** An empty batch of rows of three features. *)
Definition empty_batch : CplxTensor Z := (mkTensor [0; 3] [], mkTensor [0; 3] []).

Definition input_123 : CplxTensor Z := (vec [1; 2; 3]%Z, vec [0; 0; 0]%Z).

Definition input_12 (im1 im2 : Z) : CplxTensor Z :=
  (vec [1; 2]%Z, vec [im1; im2]).

Definition input_2x3 : CplxTensor Z :=
  (mkTensor [2; 3] [3; 0; 5; 8; 0; 7]%Z, mkTensor [2; 3] [4; 1; 12; 6; 2; 24]%Z).

(** A gain that fails inside the framework. *)
Definition failing_gain (_ : Tensor Z) : res (Tensor Z) :=
  Raise (RuntimeError "mat1 and mat2 shapes cannot be multiplied").

(** The values of [ramp_gain], with the channels on an axis of their
    own: [... x n] to [... x C x n]. *)
Definition stacked_ramp_gain (C : nat) (m : Tensor Z) : res (Tensor Z) :=
  let sh := removelast (shape m) ++ [C; last (shape m) 0] in
  Ok (mkTensor sh (map Z.of_nat (seq 1 (prod sh)))).

(** A gain that returns no element at all. *)
Definition no_gain (_ : Tensor Z) : res (Tensor Z) := Ok (mkTensor [0] []).

(** A gain that is minus one everywhere (one channel). *)
Definition negating_gain (m : Tensor Z) : res (Tensor Z) :=
  Ok (mkTensor (shape m) (repeat (-1)%Z (numel m))).

(** A gain whose number of outputs depends on the values it is given:
    five when the first modulus is one, three otherwise. *)
Definition value_dependent_gain (m : Tensor Z) : res (Tensor Z) :=
  match data m with
  | 1%Z :: _ => Ok (mkTensor [5] [1; 2; 3; 4; 5]%Z)
  | _ => Ok (mkTensor [3] [1; 1; 1]%Z)
  end.

(** The one complex number [-1 + 4i]. *)
Definition input_m1_4i : CplxTensor Z := (vec [(-1)%Z], vec [4%Z]).

Definition input_223 : CplxTensor Z := (vec [2; 2; 3]%Z, vec [0; 0; 0]%Z).

(** A zero-dimensional complex number, [5 + 0i]. *)
Definition scalar_input : CplxTensor Z := (mkTensor [] [5%Z], mkTensor [] [0%Z]).

End Examples.

(** * Properties *)

Unset Implicit Arguments.

(** ** Shapes and size inference *)

Lemma prod_app (a b : list nat) : prod (a ++ b) = prod a * prod b.
Proof.
  induction a as [|d a IH]; simpl.
  - lia.
  - rewrite IH. lia.
Qed.

Lemma known_size_app (s1 s2 : list dim) :
  known_size (s1 ++ s2) = known_size s1 * known_size s2.
Proof.
  induction s1 as [|[k|] s1 IH]; simpl; rewrite ?IH; lia.
Qed.

Lemma known_size_sizes (sh : list nat) : known_size (map Size sh) = prod sh.
Proof. induction sh as [|d sh IH]; simpl; congruence. Qed.

Lemma count_infer_app (s1 s2 : list dim) :
  count_infer (s1 ++ s2) = count_infer s1 + count_infer s2.
Proof.
  induction s1 as [|[k|] s1 IH]; simpl; rewrite ?IH; lia.
Qed.

Lemma count_infer_sizes (sh : list nat) : count_infer (map Size sh) = 0.
Proof. induction sh as [|d sh IH]; simpl; congruence. Qed.

Lemma fill_infer_sizes (c : nat) (sh : list nat) :
  fill_infer c (map Size sh) = sh.
Proof.
  unfold fill_infer. rewrite map_map. simpl. apply map_id.
Qed.

Lemma fill_infer_app (c : nat) (s1 s2 : list dim) :
  fill_infer c (s1 ++ s2) = fill_infer c s1 ++ fill_infer c s2.
Proof. apply map_app. Qed.

(** One inferred dimension after a prefix of sizes and before a suffix
    of sizes: the three outcomes of [infer_size]. *)
Lemma infer_size_one_ok (pre post : list nat) (k : nat) :
  0 < prod pre * prod post ->
  k mod (prod pre * prod post) = 0 ->
  infer_size (map Size pre ++ Infer :: map Size post) k
  = Ok (pre ++ k / (prod pre * prod post) :: post).
Proof.
  intros Hpos Hmod. unfold infer_size.
  rewrite count_infer_app, count_infer_sizes. simpl count_infer.
  rewrite count_infer_sizes. simpl.
  rewrite known_size_app, known_size_sizes. simpl known_size.
  rewrite known_size_sizes.
  set (q := prod pre * prod post) in *.
  assert (Hq : (0 <? q) = true) by (apply Nat.ltb_lt; exact Hpos).
  assert (Hm : (k mod q =? 0) = true) by (apply Nat.eqb_eq; exact Hmod).
  rewrite Hq, Hm. simpl. rewrite orb_true_r.
  assert (Hz : (q =? 0) = false) by (apply Nat.eqb_neq; lia).
  rewrite Hz.
  rewrite fill_infer_app. simpl. rewrite !fill_infer_sizes. reflexivity.
Qed.

Lemma infer_size_one_fail (pre post : list nat) (k : nat) :
  prod pre * prod post = 0 \/ k mod (prod pre * prod post) <> 0 ->
  exists msg,
    infer_size (map Size pre ++ Infer :: map Size post) k
    = Raise (RuntimeError msg).
Proof.
  intros Hbad. unfold infer_size.
  rewrite count_infer_app, count_infer_sizes. simpl count_infer.
  rewrite count_infer_sizes. simpl.
  rewrite known_size_app, known_size_sizes. simpl known_size.
  rewrite known_size_sizes.
  set (q := prod pre * prod post) in *.
  destruct (Nat.eq_dec q 0) as [Hq0|Hq0].
  - rewrite Hq0. simpl. rewrite ?andb_false_l, ?orb_false_r.
    destruct (k =? 0); eexists; reflexivity.
  - destruct Hbad as [Hbad|Hbad]; [contradiction|].
    assert (Hne : (k =? q) = false).
    { apply Nat.eqb_neq. intros ->. apply Hbad. apply Nat.Div0.mod_same. }
    assert (Hm : (k mod q =? 0) = false) by (apply Nat.eqb_neq; exact Hbad).
    rewrite Hne, Hm. rewrite andb_false_r. simpl. eexists; reflexivity.
Qed.

Lemma unpack_last_snoc (head : list nat) (n : nat) :
  unpack_last (head ++ [n]) = Ok (head, n).
Proof.
  unfold unpack_last. rewrite rev_app_distr. simpl. rewrite rev_involutive.
  reflexivity.
Qed.

Lemma unpack_last_ok (sh head : list nat) (n : nat) :
  unpack_last sh = Ok (head, n) -> sh = head ++ [n].
Proof.
  unfold unpack_last. intros Hu.
  destruct (rev sh) as [|k h] eqn:Hr; [discriminate|].
  inversion Hu; subst.
  rewrite <- (rev_involutive sh), Hr. reflexivity.
Qed.

Lemma broadcast_shapes_refl (s : list nat) : broadcast_shapes s s = Some s.
Proof.
  induction s as [|d s IH]; simpl.
  - reflexivity.
  - rewrite IH, Nat.eqb_refl. reflexivity.
Qed.

Lemma broadcast_shapes_channels (head : list nat) (C n : nat) :
  broadcast_shapes (head ++ [C; n]) (head ++ [1; n]) = Some (head ++ [C; n]).
Proof.
  induction head as [|d head IH]; simpl.
  - rewrite Nat.eqb_refl.
    destruct (C =? 1) eqn:HC.
    + apply Nat.eqb_eq in HC. subst. reflexivity.
    + reflexivity.
  - rewrite IH, Nat.eqb_refl. reflexivity.
Qed.

Lemma broadcast_shapes_length (sa sb so : list nat) :
  broadcast_shapes sa sb = Some so ->
  length sa = length so /\ length sb = length so.
Proof.
  revert sb so.
  induction sa as [|a sa IH]; intros [|b sb] so Hb; simpl in Hb;
    try discriminate.
  - inversion Hb. auto.
  - destruct (broadcast_shapes sa sb) as [s|] eqn:Hs; [|discriminate].
    destruct (IH _ _ Hs) as [H1 H2].
    destruct (a =? b); [|destruct (a =? 1); [|destruct (b =? 1)]];
      inversion Hb; subst; simpl; auto.
Qed.

Lemma pad_shape_same (r : nat) (sh : list nat) :
  r <= length sh -> pad_shape r sh = sh.
Proof.
  intros Hr. unfold pad_shape.
  replace (r - length sh) with 0 by lia. reflexivity.
Qed.

(** ** Lists cut into rows *)

Section Rows.

Context {A : Type}.

Lemma firstn_skipn_length (off len : nat) (l : list A) :
  off + len <= length l -> length (firstn len (skipn off l)) = len.
Proof.
  intros Hle. rewrite length_firstn, length_skipn. lia.
Qed.

Lemma nth_error_firstn_skipn (off len r : nat) (l : list A) :
  r < len -> nth_error (firstn len (skipn off l)) r = nth_error l (off + r).
Proof.
  intros Hr. rewrite nth_error_firstn.
  assert (Hb : (r <? len) = true) by (apply Nat.ltb_lt; exact Hr).
  rewrite Hb. apply nth_error_skipn.
Qed.

Lemma length_flat_map_rows (g : nat -> list A) (L s d : nat) :
  (forall k, s <= k < s + d -> length (g k) = L) ->
  length (flat_map g (seq s d)) = d * L.
Proof.
  revert s. induction d as [|d IH]; intros s Hg; simpl.
  - reflexivity.
  - rewrite length_app, Hg by lia. rewrite IH.
    + reflexivity.
    + intros k Hk. apply Hg. lia.
Qed.

Lemma nth_error_flat_map_rows (g : nat -> list A) (L s d i r : nat) :
  (forall k, s <= k < s + d -> length (g k) = L) ->
  i < d -> r < L ->
  nth_error (flat_map g (seq s d)) (i * L + r) = nth_error (g (s + i)) r.
Proof.
  revert s i. induction d as [|d IH]; intros s i Hg Hi Hr; [lia|].
  simpl. destruct i as [|i].
  - simpl. rewrite nth_error_app1 by (rewrite Hg; lia).
    rewrite Nat.add_0_r. reflexivity.
  - rewrite nth_error_app2 by (rewrite Hg; lia).
    rewrite Hg by lia.
    replace (S i * L + r - L) with (i * L + r) by lia.
    rewrite IH; try lia.
    + f_equal. f_equal. lia.
    + intros k Hk. apply Hg. lia.
Qed.

End Rows.

(** ** Multi-indices *)

Lemma in_bounds_length (sh ix : list nat) :
  in_bounds sh ix = true -> length ix = length sh.
Proof.
  revert ix. induction sh as [|d sh IH]; intros [|i ix] Hb; simpl in *;
    try discriminate; auto.
  apply andb_prop in Hb. destruct Hb as [_ Hb]. f_equal. auto.
Qed.

Lemma ravel_lt (sh ix : list nat) :
  in_bounds sh ix = true -> ravel sh ix < prod sh.
Proof.
  revert ix. induction sh as [|d sh IH]; intros [|i ix] Hb; simpl in *;
    try discriminate; try lia.
  apply andb_prop in Hb. destruct Hb as [Hi Hb].
  apply Nat.ltb_lt in Hi. specialize (IH _ Hb). nia.
Qed.

Lemma in_bounds_app (s1 s2 x1 x2 : list nat) :
  in_bounds s1 x1 = true ->
  in_bounds (s1 ++ s2) (x1 ++ x2) = in_bounds s2 x2.
Proof.
  revert x1. induction s1 as [|d s1 IH]; intros [|i x1] Hb; simpl in *;
    try discriminate; auto.
  apply andb_prop in Hb. destruct Hb as [Hi Hb].
  rewrite Hi. simpl. auto.
Qed.

Lemma ravel_app (s1 s2 x1 x2 : list nat) :
  in_bounds s1 x1 = true ->
  ravel (s1 ++ s2) (x1 ++ x2) = ravel s1 x1 * prod s2 + ravel s2 x2.
Proof.
  revert x1. induction s1 as [|d s1 IH]; intros [|i x1] Hb; simpl in *;
    try discriminate; auto.
  apply andb_prop in Hb. destruct Hb as [_ Hb].
  rewrite IH by exact Hb. rewrite prod_app. lia.
Qed.

Lemma bidx_in_bounds (sh ix : list nat) :
  in_bounds sh ix = true -> bidx sh ix = ix.
Proof.
  revert ix. induction sh as [|d sh IH]; intros [|i ix] Hb; simpl in *;
    try discriminate; auto.
  apply andb_prop in Hb. destruct Hb as [Hi Hb].
  apply Nat.ltb_lt in Hi. rewrite IH by exact Hb.
  destruct (d =? 1) eqn:Hd; [|reflexivity].
  apply Nat.eqb_eq in Hd. f_equal. lia.
Qed.

Lemma bidx_app (s1 s2 x1 x2 : list nat) :
  length x1 = length s1 ->
  bidx (s1 ++ s2) (x1 ++ x2) = bidx s1 x1 ++ bidx s2 x2.
Proof.
  revert x1. induction s1 as [|d s1 IH]; intros [|i x1] Hl; simpl in *;
    try discriminate; auto.
  f_equal. apply IH. lia.
Qed.

(** The leading size of a broadcast result, and what it says about the
    leading sizes of the operands. *)
Lemma broadcast_shapes_cons (a b : nat) (sa sb so : list nat) :
  broadcast_shapes (a :: sa) (b :: sb) = Some so ->
  exists so',
    so = (if a =? 1 then b else a) :: so' /\
    broadcast_shapes sa sb = Some so' /\
    (a = 1 \/ a = (if a =? 1 then b else a)) /\
    (b = 1 \/ b = (if a =? 1 then b else a)).
Proof.
  simpl. destruct (broadcast_shapes sa sb) as [s|]; [|discriminate].
  intros Hb. exists s.
  destruct (a =? b) eqn:Hab.
  - apply Nat.eqb_eq in Hab. subst b. inversion Hb; subst.
    destruct (a =? 1) eqn:Ha; [apply Nat.eqb_eq in Ha; subst|]; auto.
  - destruct (a =? 1) eqn:Ha.
    + inversion Hb; subst. apply Nat.eqb_eq in Ha. auto.
    + destruct (b =? 1) eqn:Hb1; [|discriminate].
      inversion Hb; subst. apply Nat.eqb_eq in Hb1. auto.
Qed.

Lemma broadcast_in_bounds (sa sb so ix : list nat) :
  broadcast_shapes sa sb = Some so ->
  in_bounds so ix = true ->
  in_bounds sa (bidx sa ix) = true /\ in_bounds sb (bidx sb ix) = true.
Proof.
  revert sb so ix.
  induction sa as [|a sa IH]; intros [|b sb] so ix Hs Hb;
    try (simpl in Hs; discriminate).
  - simpl in Hs. inversion Hs; subst. destruct ix; [auto|discriminate].
  - apply broadcast_shapes_cons in Hs.
    destruct Hs as (so' & -> & Hs & Ha & Hb').
    destruct ix as [|i ix]; [discriminate|].
    simpl in Hb. apply andb_prop in Hb. destruct Hb as [Hi Hb].
    apply Nat.ltb_lt in Hi.
    destruct (IH _ _ _ Hs Hb) as [H1 H2].
    simpl. rewrite H1, H2.
    split; apply andb_true_intro; split; auto; apply Nat.ltb_lt.
    + destruct (a =? 1) eqn:E; [apply Nat.eqb_eq in E; lia|lia].
    + destruct (b =? 1) eqn:E; [apply Nat.eqb_eq in E; lia|].
      apply Nat.eqb_neq in E. destruct Hb' as [?|Hb']; [lia|].
      rewrite Hb'. exact Hi.
Qed.

(** ** Broadcasting, element by element *)

Section Broadcast.

Context {R : Type} `{Scalar R}.
Variable f : R -> R -> R.

Lemma slice_length (off len : nat) (l : list R) :
  off + len <= length l -> length (slice off len l) = len.
Proof. apply firstn_skipn_length. Qed.

Lemma nth_error_slice (off len r : nat) (l : list R) :
  r < len -> nth_error (slice off len l) r = nth_error l (off + r).
Proof. apply nth_error_firstn_skipn. Qed.

(** Offsets of the rows read along a leading axis stay inside the operand. *)
Lemma row_offset_fits (a d i k : nat) :
  a = 1 \/ a = d -> i < d ->
  (if a =? 1 then 0 else i * k) + k <= a * k.
Proof.
  intros Ha Hi. destruct (a =? 1) eqn:E.
  - apply Nat.eqb_eq in E. subst. lia.
  - apply Nat.eqb_neq in E. destruct Ha as [? | ->]; [contradiction|]. nia.
Qed.

Lemma bcast_data_length (sa sb so : list nat) (da db : list R) :
  broadcast_shapes sa sb = Some so ->
  length da = prod sa -> length db = prod sb ->
  length (bcast_data f sa sb da db) = prod so.
Proof.
  revert sb so da db.
  induction sa as [|a sa IH]; intros [|b sb] so da db Hs Hda Hdb;
    try (simpl in Hs; discriminate).
  - simpl in Hs. inversion Hs; subst. simpl in *.
    destruct da as [|x da]; [discriminate|].
    destruct db as [|y db]; [discriminate|]. reflexivity.
  - apply broadcast_shapes_cons in Hs.
    destruct Hs as (so' & -> & Hs & Ha & Hb).
    cbn [bcast_data prod fold_right]. fold (prod so').
    cbn [prod fold_right] in Hda, Hdb. fold (prod sa) in Hda. fold (prod sb) in Hdb.
    apply length_flat_map_rows. intros i Hi.
    apply IH with (so := so'); auto.
    + apply slice_length. rewrite Hda.
      apply row_offset_fits with (d := if a =? 1 then b else a); auto. lia.
    + apply slice_length. rewrite Hdb.
      apply row_offset_fits with (d := if a =? 1 then b else a); auto. lia.
Qed.

Lemma bcast_data_nth (sa sb so ix : list nat) (da db : list R) :
  broadcast_shapes sa sb = Some so ->
  length da = prod sa -> length db = prod sb ->
  in_bounds so ix = true ->
  exists x y,
    nth_error da (ravel sa (bidx sa ix)) = Some x /\
    nth_error db (ravel sb (bidx sb ix)) = Some y /\
    nth_error (bcast_data f sa sb da db) (ravel so ix) = Some (f x y).
Proof.
  revert sb so ix da db.
  induction sa as [|a sa IH]; intros [|b sb] so ix da db Hs Hda Hdb Hix;
    try (simpl in Hs; discriminate).
  - simpl in Hs. inversion Hs; subst. simpl in *.
    destruct da as [|x da]; [discriminate|].
    destruct db as [|y db]; [discriminate|].
    exists x, y. destruct ix; simpl; auto.
  - apply broadcast_shapes_cons in Hs.
    destruct Hs as (so' & -> & Hs & Ha & Hb).
    destruct ix as [|i ix]; [discriminate|].
    cbn [in_bounds] in Hix. apply andb_prop in Hix. destruct Hix as [Hi Hix].
    apply Nat.ltb_lt in Hi.
    cbn [prod fold_right] in Hda, Hdb. fold (prod sa) in Hda. fold (prod sb) in Hdb.
    set (d := if a =? 1 then b else a) in *.
    assert (Hla : length (slice (if a =? 1 then 0 else i * prod sa) (prod sa) da)
                  = prod sa).
    { apply slice_length. rewrite Hda. apply row_offset_fits with (d := d); auto. }
    assert (Hlb : length (slice (if b =? 1 then 0 else i * prod sb) (prod sb) db)
                  = prod sb).
    { apply slice_length. rewrite Hdb. apply row_offset_fits with (d := d); auto. }
    destruct (IH _ _ _ _ _ Hs Hla Hlb Hix) as (x & y & Hx & Hy & Hxy).
    destruct (broadcast_in_bounds _ _ _ _ Hs Hix) as [Hba Hbb].
    apply ravel_lt in Hba. apply ravel_lt in Hbb.
    rewrite nth_error_slice in Hx by exact Hba.
    rewrite nth_error_slice in Hy by exact Hbb.
    exists x, y. cbn [ravel bidx bcast_data]. fold d.
    repeat split.
    + rewrite <- Hx. f_equal. destruct (a =? 1); lia.
    + rewrite <- Hy. f_equal. destruct (b =? 1); lia.
    + rewrite nth_error_flat_map_rows with (L := prod so').
      * exact Hxy.
      * intros k Hk. apply bcast_data_length; auto.
        -- apply slice_length. rewrite Hda.
           apply row_offset_fits with (d := d); auto. lia.
        -- apply slice_length. rewrite Hdb.
           apply row_offset_fits with (d := d); auto. lia.
      * exact Hi.
      * apply ravel_lt. exact Hix.
Qed.

End Broadcast.

(** ** The framework operations on tensors *)

Section TensorOps.

Context {R : Type} `{Scalar R}.

Lemma broadcast_op_same_rank (f : R -> R -> R) (a b : Tensor R) (so : list nat) :
  length (shape a) = length (shape b) ->
  broadcast_shapes (shape a) (shape b) = Some so ->
  broadcast_op f a b
  = Ok (mkTensor so (bcast_data f (shape a) (shape b) (data a) (data b))).
Proof.
  intros Hl Hs. unfold broadcast_op.
  rewrite !pad_shape_same by lia. rewrite Hs. reflexivity.
Qed.

Lemma cplx_modulus_ok (input : CplxTensor R) (sh : list nat) :
  has_shape input sh -> cplx_wf input ->
  exists m, cplx_modulus input = Ok m /\ shape m = sh /\ wf m.
Proof.
  destruct input as [re im]. intros [Hre Him] [Wre Wim]. simpl in *.
  eexists. split; [|split].
  - apply broadcast_op_same_rank with (so := sh).
    + congruence.
    + rewrite Hre, Him. apply broadcast_shapes_refl.
  - reflexivity.
  - unfold wf, numel. simpl.
    apply bcast_data_length; auto.
    rewrite Hre, Him. apply broadcast_shapes_refl.
Qed.

Lemma unsqueeze_m2_snoc (t : Tensor R) (head : list nat) (n : nat) :
  shape t = head ++ [n] ->
  unsqueeze_m2 t = Ok (mkTensor (head ++ [1; n]) (data t)).
Proof.
  intros Hs. unfold unsqueeze_m2. rewrite Hs.
  destruct (head ++ [n]) as [|d l] eqn:E.
  - destruct head; discriminate.
  - rewrite <- E. rewrite length_app. simpl.
    replace (length head + 1 - 1) with (length head) by lia.
    rewrite firstn_app, skipn_app, Nat.sub_diag, firstn_all, skipn_all.
    simpl. rewrite app_nil_r. reflexivity.
Qed.

Lemma reshape_channels_ok (g : Tensor R) (head : list nat) (n : nat) :
  0 < prod head * n ->
  numel g mod (prod head * n) = 0 ->
  reshape g (map Size head ++ [Infer; Size n])
  = Ok (mkTensor (head ++ [numel g / (prod head * n); n]) (data g)).
Proof.
  intros Hpos Hmod. unfold reshape.
  change [Infer; Size n] with (Infer :: map Size [n]).
  rewrite infer_size_one_ok; simpl; rewrite ?Nat.mul_1_r; auto.
Qed.

Lemma reshape_channels_fail (g : Tensor R) (head : list nat) (n : nat) :
  prod head * n = 0 \/ numel g mod (prod head * n) <> 0 ->
  exists msg,
    reshape g (map Size head ++ [Infer; Size n]) = Raise (RuntimeError msg).
Proof.
  intros Hbad. unfold reshape.
  change [Infer; Size n] with (Infer :: map Size [n]).
  destruct (infer_size_one_fail head [n] (numel g)) as [msg Hmsg].
  - simpl. rewrite Nat.mul_1_r. exact Hbad.
  - exists msg. rewrite Hmsg. reflexivity.
Qed.

Lemma reshape_flatten_ok (t : Tensor R) (head : list nat) (k : nat) :
  0 < prod head ->
  numel t = prod head * k ->
  reshape t (map Size head ++ [Infer]) = Ok (mkTensor (head ++ [k]) (data t)).
Proof.
  intros Hpos Hn. unfold reshape.
  change [Infer] with (Infer :: map Size []).
  rewrite infer_size_one_ok; simpl; rewrite ?Nat.mul_1_r; auto.
  - rewrite Hn. simpl. rewrite Nat.mul_comm, Nat.div_mul by lia. reflexivity.
  - rewrite Hn, Nat.mul_comm. apply Nat.Div0.mod_mul.
Qed.

(** [gain * t.unsqueeze(-2)] for a gain of shape [head ++ [C; n]]. *)
Lemma tmul_channels (g t : Tensor R) (head : list nat) (C n : nat) :
  shape g = head ++ [C; n] ->
  shape t = head ++ [1; n] ->
  tmul g t
  = Ok (mkTensor (head ++ [C; n])
          (bcast_data smul (head ++ [C; n]) (head ++ [1; n]) (data g) (data t))).
Proof.
  intros Hg Ht. unfold tmul.
  rewrite broadcast_op_same_rank with (so := head ++ [C; n]).
  - rewrite Hg, Ht. reflexivity.
  - rewrite Hg, Ht, !length_app. reflexivity.
  - rewrite Hg, Ht. apply broadcast_shapes_channels.
Qed.

(** The elements of that product, read in the layout of the input. *)
Lemma bcast_channels_nth (head hs : list nat) (C n c j : nat) (dg dt : list R) :
  length dg = prod head * (C * n) ->
  length dt = prod head * n ->
  in_bounds head hs = true -> c < C -> j < n ->
  exists gv tv,
    nth_error dg ((ravel head hs * C + c) * n + j) = Some gv /\
    nth_error dt (ravel head hs * n + j) = Some tv /\
    nth_error (bcast_data smul (head ++ [C; n]) (head ++ [1; n]) dg dt)
      ((ravel head hs * C + c) * n + j) = Some (smul gv tv).
Proof.
  intros Hdg Hdt Hhs Hc Hj.
  assert (Hcj : in_bounds [C; n] [c; j] = true).
  { simpl. apply Nat.ltb_lt in Hc, Hj. rewrite Hc, Hj. reflexivity. }
  assert (Hix : in_bounds (head ++ [C; n]) (hs ++ [c; j]) = true).
  { rewrite in_bounds_app by exact Hhs. exact Hcj. }
  destruct (bcast_data_nth smul (head ++ [C; n]) (head ++ [1; n])
              (head ++ [C; n]) (hs ++ [c; j]) dg dt
              (broadcast_shapes_channels head C n))
    as (gv & tv & Hgv & Htv & Hout); auto.
  { rewrite prod_app. simpl. rewrite Hdg. lia. }
  { rewrite prod_app. simpl. rewrite Hdt. lia. }
  rewrite bidx_in_bounds in Hgv by exact Hix.
  rewrite bidx_app in Htv by (apply in_bounds_length; exact Hhs).
  rewrite (bidx_in_bounds _ _ Hhs) in Htv.
  rewrite !ravel_app in * by exact Hhs.
  assert (Hj' : (if n =? 1 then 0 else j) = j).
  { destruct (n =? 1) eqn:E; [apply Nat.eqb_eq in E; lia|reflexivity]. }
  simpl in Hgv, Htv, Hout. rewrite Hj' in Htv.
  exists gv, tv. repeat split.
  - rewrite <- Hgv. f_equal. lia.
  - rewrite <- Htv. f_equal. lia.
  - rewrite <- Hout. f_equal. lia.
Qed.

End TensorOps.

(** ** Reading and concatenating along the last axis *)

Section LastAxis.

Context {R : Type} `{Scalar R}.

Lemma tget_snoc (t : Tensor R) (head hs : list nat) (n k : nat) :
  shape t = head ++ [n] ->
  in_bounds head hs = true -> k < n ->
  tget t (hs ++ [k]) = nth_error (data t) (ravel head hs * n + k).
Proof.
  intros Hs Hhs Hk. unfold tget. rewrite Hs.
  rewrite in_bounds_app by exact Hhs. simpl.
  apply Nat.ltb_lt in Hk. rewrite Hk. simpl.
  rewrite ravel_app by exact Hhs. simpl. f_equal. lia.
Qed.

Lemma tget_channels (t : Tensor R) (head hs : list nat) (C n c j : nat) :
  shape t = head ++ [C; n] ->
  in_bounds head hs = true -> c < C -> j < n ->
  tget t (hs ++ [c; j]) = nth_error (data t) ((ravel head hs * C + c) * n + j).
Proof.
  intros Hs Hhs Hc Hj. unfold tget. rewrite Hs.
  rewrite in_bounds_app by exact Hhs. simpl.
  apply Nat.ltb_lt in Hc, Hj. rewrite Hc, Hj. simpl.
  rewrite ravel_app by exact Hhs. simpl. f_equal. lia.
Qed.

Lemma shape_eqb_refl (s : list nat) : shape_eqb s s = true.
Proof.
  induction s as [|d s IH]; simpl; [reflexivity|].
  rewrite Nat.eqb_refl, IH. reflexivity.
Qed.

Lemma skipped_by_cat_snoc (t : Tensor R) (head : list nat) (n : nat) :
  shape t = head ++ [n] ->
  skipped_by_cat t = true -> head = [] /\ n = 0.
Proof.
  unfold skipped_by_cat. intros ->.
  destruct head as [|d head]; simpl.
  - destruct (Nat.eqb_spec n 0); [auto|discriminate].
  - destruct head; simpl; rewrite andb_false_r; discriminate.
Qed.

Lemma cat_last_nonscalar (a b : Tensor R) (ha hb : list nat) (na nb : nat) :
  shape a = ha ++ [na] -> shape b = hb ++ [nb] ->
  cat_last a b =
  if skipped_by_cat a then Ok b
  else if skipped_by_cat b then Ok a
  else if shape_eqb ha hb then
    Ok (mkTensor (ha ++ [na + nb])
          (flat_map
             (fun i => slice (i * na) na (data a) ++ slice (i * nb) nb (data b))
             (seq 0 (prod ha))))
  else Raise (RuntimeError "Sizes of tensors must match except in dimension -1").
Proof.
  intros Ha Hb. unfold cat_last.
  rewrite Ha, Hb, !removelast_last, !last_last.
  destruct (ha ++ [na]) eqn:Ea; [destruct ha; discriminate|].
  destruct (hb ++ [nb]) eqn:Eb; [destruct hb; discriminate|].
  reflexivity.
Qed.

Lemma cat_rows_length (da db : list R) (P na nb : nat) :
  length da = P * na -> length db = P * nb ->
  forall i, 0 <= i < 0 + P ->
    length (slice (i * na) na da ++ slice (i * nb) nb db) = na + nb.
Proof.
  intros Hda Hdb i Hi. rewrite length_app, !slice_length; [reflexivity| |].
  - rewrite Hdb. nia.
  - rewrite Hda. nia.
Qed.

(** [cat] of two tensors that agree up to the last axis: the rows of the
    first, each followed by the matching row of the second. *)
Lemma cat_last_rows (a b : Tensor R) (head : list nat) (na nb : nat) :
  shape a = head ++ [na] -> shape b = head ++ [nb] ->
  wf a -> wf b ->
  exists c,
    cat_last a b = Ok c /\
    shape c = head ++ [na + nb] /\
    wf c /\
    forall hs, in_bounds head hs = true ->
      (forall k, k < na -> tget c (hs ++ [k]) = tget a (hs ++ [k])) /\
      (forall j, j < nb -> tget c (hs ++ [na + j]) = tget b (hs ++ [j])).
Proof.
  intros Ha Hb Wa Wb.
  rewrite (cat_last_nonscalar a b head head na nb Ha Hb).
  destruct (skipped_by_cat a) eqn:Sa.
  { destruct (skipped_by_cat_snoc a head na Ha Sa) as [-> ->].
    exists b. repeat split; auto. lia. }
  destruct (skipped_by_cat b) eqn:Sb.
  { destruct (skipped_by_cat_snoc b head nb Hb Sb) as [-> ->].
    exists a. rewrite Nat.add_0_r. repeat split; auto. lia. }
  rewrite shape_eqb_refl.
  unfold wf, numel in Wa, Wb. rewrite Ha in Wa. rewrite Hb in Wb.
  rewrite prod_app in Wa, Wb. simpl in Wa, Wb. rewrite Nat.mul_1_r in Wa, Wb.
  pose proof (cat_rows_length (data a) (data b) (prod head) na nb Wa Wb) as Hrows.
  eexists. split; [reflexivity|]. split; [reflexivity|]. split.
  { unfold wf, numel. simpl. rewrite prod_app. simpl.
    rewrite length_flat_map_rows with (L := na + nb) by exact Hrows. lia. }
  intros hs Hhs. pose proof (ravel_lt _ _ Hhs) as Hlt. split.
  - intros k Hk.
    rewrite tget_snoc with (head := head) (n := na + nb) by (auto; lia).
    rewrite tget_snoc with (head := head) (n := na) by auto.
    simpl data.
    rewrite nth_error_flat_map_rows with (L := na + nb); auto; try lia.
    simpl. rewrite nth_error_app1.
    + apply nth_error_slice. exact Hk.
    + rewrite slice_length; [exact Hk|]. rewrite Wa. nia.
  - intros j Hj.
    rewrite tget_snoc with (head := head) (n := na + nb) by (auto; lia).
    rewrite tget_snoc with (head := head) (n := nb) by auto.
    simpl data.
    rewrite nth_error_flat_map_rows with (L := na + nb); auto; try lia.
    simpl. rewrite nth_error_app2.
    + rewrite slice_length by (rewrite Wa; nia).
      replace (na + j - na) with j by lia.
      apply nth_error_slice. exact Hj.
    + rewrite slice_length by (rewrite Wa; nia). lia.
Qed.

End LastAxis.

(** ** Methods that only read [self] *)

Section ReadOnly.

Context {S : Type}.

Lemma keeps_self_mret {A} (a : A) : keeps_self (S := S) (mret a).
Proof. intros s. reflexivity. Qed.

Lemma keeps_self_mraise {A} (e : exn) : keeps_self (S := S) (A := A) (mraise e).
Proof. intros s. reflexivity. Qed.

Lemma keeps_self_attr {A} (f : S -> A) : keeps_self (attr f).
Proof. intros s. reflexivity. Qed.

Lemma keeps_self_call {A} (r : res A) : keeps_self (S := S) (call r).
Proof. intros s. reflexivity. Qed.

Lemma keeps_self_mbind {A B} (m : method S A) (k : A -> method S B) :
  keeps_self m -> (forall a, keeps_self (k a)) -> keeps_self (mbind m k).
Proof.
  intros Hm Hk s. unfold after, mbind.
  specialize (Hm s). unfold after in Hm.
  destruct (m s) as [[a|e] s']; simpl in Hm; subst s'.
  - apply Hk.
  - reflexivity.
Qed.

Lemma keeps_self_run {A} (m : method S A) (self : S) :
  keeps_self m -> m self = (result m self, self).
Proof.
  intros Hm. specialize (Hm self). unfold after, result in *.
  destruct (m self) as [r s']. simpl in *. congruence.
Qed.

End ReadOnly.

Ltac keeps_self_step :=
  first
    [ apply keeps_self_mret
    | apply keeps_self_mraise
    | apply keeps_self_attr
    | apply keeps_self_call
    | apply keeps_self_mbind; [| intros ? ] ].

(** ** [CplxMultichannelGainLayer.forward] *)

Section MultichannelForward.

Context {R : Type} `{Scalar R}.

Import CplxMultichannelGainLayer.

Lemma forward_keeps_self (input : CplxTensor R) : keeps_self (forward input).
Proof.
  destruct input as [re im]. unfold forward.
  repeat keeps_self_step.
  match goal with p : (list nat * nat)%type |- _ => destruct p as [head n] end.
  repeat keeps_self_step.
  match goal with b : bool |- _ => destruct b end; repeat keeps_self_step.
Qed.

(** The path on which the gain is reshaped: the channel count is what
    [reshape] infers, and both parts are the broadcast product. *)
Lemma forward_ok (self : t R) (re im m g : Tensor R) (head : list nat) (n : nat) :
  shape re = head ++ [n] -> shape im = head ++ [n] ->
  cplx_modulus (re, im) = Ok m -> gain self m = Ok g ->
  0 < prod head * n -> numel g mod (prod head * n) = 0 ->
  result (forward (re, im)) self =
  let C := numel g / (prod head * n) in
  let out (x : Tensor R) :=
    bcast_data smul (head ++ [C; n]) (head ++ [1; n]) (data g) (data x) in
  let sh := head ++ (if flatten self then [C * n] else [C; n]) in
  Ok (mkTensor sh (out re), mkTensor sh (out im)).
Proof.
  intros Hre Him Hm Hg Hpos Hmod.
  unfold result, forward. cbv [mbind attr call mret].
  rewrite Hm. cbv beta iota. rewrite Hg. cbv beta iota.
  rewrite Hre, unpack_last_snoc. cbv beta iota zeta.
  rewrite reshape_channels_ok by assumption.
  cbv [try_except_RuntimeError]. cbv beta iota.
  rewrite (unsqueeze_m2_snoc re head n Hre).
  rewrite (unsqueeze_m2_snoc im head n Him). cbv beta iota.
  set (C := numel g / (prod head * n)).
  rewrite !tmul_channels with (head := head) (C := C) (n := n) by reflexivity.
  cbv beta iota. simpl data.
  destruct (flatten self).
  - assert (HP : 0 < prod head) by nia.
    rewrite !reshape_flatten_ok with (k := C * n); auto;
      try (unfold numel; simpl; rewrite prod_app; simpl; lia).
  - reflexivity.
Qed.

(** The path on which the reshape fails and the error is translated. *)
Lemma forward_incompatible
    (self : t R) (re im m g : Tensor R) (head : list nat) (n : nat) :
  shape re = head ++ [n] ->
  cplx_modulus (re, im) = Ok m -> gain self m = Ok g ->
  prod head * n = 0 \/ numel g mod (prod head * n) <> 0 ->
  result (forward (re, im)) self =
  Raise (ValueError (incompatible_msg (skipn (length head) (shape g)) n)).
Proof.
  intros Hre Hm Hg Hbad.
  unfold result, forward. cbv [mbind attr call mret].
  rewrite Hm. cbv beta iota. rewrite Hg. cbv beta iota.
  rewrite Hre, unpack_last_snoc. cbv beta iota zeta.
  destruct (reshape_channels_fail g head n Hbad) as [msg Hmsg].
  rewrite Hmsg. reflexivity.
Qed.

(** A call that returns went through the reshape. *)
Lemma forward_returns_inv
    (self : t R) (input out : CplxTensor R) (head : list nat) (n : nat) :
  has_shape input (head ++ [n]) -> cplx_wf input ->
  result (forward input) self = Ok out ->
  exists m g,
    cplx_modulus input = Ok m /\ shape m = head ++ [n] /\ wf m /\
    gain self m = Ok g /\
    0 < prod head * n /\ numel g mod (prod head * n) = 0.
Proof.
  intros Hsh Hwf Hout.
  destruct (cplx_modulus_ok input (head ++ [n]) Hsh Hwf) as (m & Hm & Hms & Hmw).
  destruct input as [re im]. destruct Hsh as [Hre Him]. simpl in Hre, Him.
  exists m. destruct (gain self m) as [g|e] eqn:Hg.
  - exists g.
    destruct (Nat.eq_dec (prod head * n) 0) as [Hz|Hz].
    + rewrite (forward_incompatible self re im m g head n Hre Hm Hg) in Hout
        by (left; exact Hz).
      discriminate.
    + destruct (Nat.eq_dec (numel g mod (prod head * n)) 0) as [Hd|Hd].
      * repeat split; auto. lia.
      * rewrite (forward_incompatible self re im m g head n Hre Hm Hg) in Hout
          by (right; exact Hd).
        discriminate.
  - exfalso. revert Hout.
    unfold result, forward. cbv [mbind attr call mret].
    rewrite Hm. cbv beta iota. rewrite Hg. discriminate.
Qed.

(** A gain function with [C] channels on a non-empty input. *)
Lemma forward_channels
    (gain : Tensor R -> res (Tensor R)) (fl : bool)
    (input : CplxTensor R) (head : list nat) (n C : nat) :
  has_shape input (head ++ [n]) -> cplx_wf input ->
  gain_channels gain head n C ->
  0 < prod head * n ->
  exists m g,
    cplx_modulus input = Ok m /\ gain m = Ok g /\ wf g /\
    numel g = prod head * (C * n) /\
    numel g / (prod head * n) = C /\
    numel g mod (prod head * n) = 0 /\
    result (forward input) (mk gain fl) =
    Ok (mkTensor (head ++ (if fl then [C * n] else [C; n]))
          (bcast_data smul (head ++ [C; n]) (head ++ [1; n])
             (data g) (data (fst input))),
        mkTensor (head ++ (if fl then [C * n] else [C; n]))
          (bcast_data smul (head ++ [C; n]) (head ++ [1; n])
             (data g) (data (snd input)))).
Proof.
  intros Hsh Hwf Hgain Hpos.
  destruct (cplx_modulus_ok input (head ++ [n]) Hsh Hwf) as (m & Hm & Hms & Hmw).
  destruct (Hgain m Hms Hmw) as (g & Hg & Hgw & Hgn).
  destruct input as [re im]. destruct Hsh as [Hre Him]. simpl in Hre, Him.
  assert (Hq : numel g = C * (prod head * n)) by lia.
  assert (Hdiv : numel g / (prod head * n) = C).
  { rewrite Hq. apply Nat.div_mul. lia. }
  assert (Hmod : numel g mod (prod head * n) = 0).
  { rewrite Hq. apply Nat.Div0.mod_mul. }
  exists m, g. repeat (split; [assumption|]).
  rewrite (forward_ok (mk gain fl) re im m g head n); auto.
  cbv zeta. rewrite Hdiv. reflexivity.
Qed.

(** One element of what [forward] returns, at its row-major offset. *)
Lemma forward_element
    (gain : Tensor R -> res (Tensor R)) (input : CplxTensor R)
    (head hs : list nat) (n C c j : nat) :
  has_shape input (head ++ [n]) -> cplx_wf input ->
  gain_channels gain head n C ->
  in_bounds head hs = true -> c < C -> j < n ->
  exists m g gv rv iv,
    cplx_modulus input = Ok m /\ gain m = Ok g /\
    numel g = prod head * (C * n) /\
    0 < prod head * n /\
    nth_error (data g) ((ravel head hs * C + c) * n + j) = Some gv /\
    tget (fst input) (hs ++ [j]) = Some rv /\
    tget (snd input) (hs ++ [j]) = Some iv /\
    forall fl, exists re' im',
      result (forward input) (mk gain fl) = Ok (re', im') /\
      shape re' = head ++ (if fl then [C * n] else [C; n]) /\
      shape im' = head ++ (if fl then [C * n] else [C; n]) /\
      wf re' /\ wf im' /\
      nth_error (data re') ((ravel head hs * C + c) * n + j)
      = Some (smul gv rv) /\
      nth_error (data im') ((ravel head hs * C + c) * n + j)
      = Some (smul gv iv).
Proof.
  intros Hsh Hwf Hgain Hhs Hc Hj.
  assert (Hpos : 0 < prod head * n).
  { pose proof (ravel_lt head hs Hhs). nia. }
  destruct (forward_channels gain false input head n C Hsh Hwf Hgain Hpos)
    as (m & g & Hm & Hg & Wg & Hgn & _ & _ & _).
  pose proof Hsh as [Hre Him]. pose proof Hwf as [Wre Wim].
  unfold wf in Wg. rewrite Hgn in Wg.
  unfold wf, numel in Wre, Wim.
  rewrite Hre, prod_app in Wre. rewrite Him, prod_app in Wim.
  simpl in Wre, Wim. rewrite Nat.mul_1_r in Wre, Wim.
  destruct (bcast_channels_nth head hs C n c j (data g) (data (fst input))
              Wg Wre Hhs Hc Hj) as (gv & rv & Hgv & Hrv & Hre').
  destruct (bcast_channels_nth head hs C n c j (data g) (data (snd input))
              Wg Wim Hhs Hc Hj) as (gv' & iv & Hgv' & Hiv & Him').
  assert (gv' = gv) by congruence. subst gv'.
  exists m, g, gv, rv, iv. repeat (split; [assumption|]).
  split; [rewrite (tget_snoc _ head hs n j Hre Hhs Hj); exact Hrv|].
  split; [rewrite (tget_snoc _ head hs n j Him Hhs Hj); exact Hiv|].
  intros fl.
  destruct (forward_channels gain fl input head n C Hsh Hwf Hgain Hpos)
    as (m' & g' & Hm' & Hg' & _ & _ & _ & _ & Hout).
  assert (m' = m) by congruence. subst m'.
  assert (g' = g) by congruence. subst g'.
  do 2 eexists. split; [exact Hout|]. simpl.
  split; [reflexivity|]. split; [reflexivity|].
  assert (Hlen : forall d, length d = prod head * n ->
            length (bcast_data smul (head ++ [C; n]) (head ++ [1; n]) (data g) d)
            = prod (head ++ (if fl then [C * n] else [C; n]))).
  { intros d Hd.
    rewrite (bcast_data_length smul (head ++ [C; n]) (head ++ [1; n])
               (head ++ [C; n]));
      rewrite ?prod_app; simpl; try lia.
    - destruct fl; simpl; lia.
    - apply broadcast_shapes_channels. }
  split; [apply Hlen; exact Wre|]. split; [apply Hlen; exact Wim|]. auto.
Qed.

End MultichannelForward.

(** ** [CplxProjectionGainLayer.forward] *)

Section ProjectionForward.

Context {R : Type} `{Scalar R}.
Variables (P Out : Type).
Variable is_cplx_to_cplx : P -> bool.
Variable apply_projection : P -> CplxTensor R -> res Out.

Import CplxProjectionGainLayer.

Lemma via_super_keeps_self {A}
    (m : method (CplxMultichannelGainLayer.t R) A) :
  keeps_self m -> keeps_self (via_super (P := P) m).
Proof.
  intros Hm [base p]. unfold after, via_super. simpl.
  specialize (Hm base). unfold after in Hm.
  destruct (m base) as [r base']. simpl in *. congruence.
Qed.

Lemma projection_forward_keeps_self (input : CplxTensor R) :
  keeps_self (forward apply_projection input).
Proof.
  destruct input as [re im]. unfold forward.
  apply keeps_self_mbind.
  - apply via_super_keeps_self, forward_keeps_self.
  - intros [re_g im_g]. repeat keeps_self_step.
Qed.

Lemma via_super_result {A}
    (m : method (CplxMultichannelGainLayer.t R) A) (self : t P) :
  result (via_super m) self = result m (super self).
Proof.
  unfold result, via_super. destruct (m (super self)). reflexivity.
Qed.

(** What [forward] hands to the projection. *)
Lemma projection_forward_run
    (self : t P) (input : CplxTensor R) (re_g im_g re im : Tensor R) :
  result (CplxMultichannelGainLayer.forward input) (super self) = Ok (re_g, im_g) ->
  cat_last re_g (fst input) = Ok re ->
  cat_last im_g (snd input) = Ok im ->
  result (forward apply_projection input) self
  = apply_projection (projection self) (re, im).
Proof.
  intros Hg Hre Him. destruct input as [re_z im_z]. simpl in Hre, Him.
  unfold result in *. unfold forward. cbv [mbind via_super attr call].
  destruct (CplxMultichannelGainLayer.forward (re_z, im_z) (super self))
    as [r base]. simpl in Hg. subst r. cbv beta iota zeta.
  rewrite Hre. cbv beta iota. rewrite Him. reflexivity.
Qed.

End ProjectionForward.

(** * The layers against their specification *)

Section Construction.

Context {R : Type} `{Scalar R}.
Variables (P Out : Type).
Variable is_cplx_to_cplx : P -> bool.

(** C7.  Constructing a [CplxProjectionGainLayer] with a projection that
    fails [is_cplx_to_cplx] raises [AssertionError], so that no layer
    exists on which [forward] could be called; with a projection that
    passes, construction returns a layer that stores the projection and the
    gain, flattening. *)
Theorem projection_init_checks_capability
    (gain : Tensor R -> res (Tensor R)) (projection : P) :
  (is_cplx_to_cplx projection = false ->
   CplxProjectionGainLayer.init is_cplx_to_cplx gain projection
   = Raise AssertionError /\
   forall l, CplxProjectionGainLayer.init is_cplx_to_cplx gain projection
             <> Ok l) /\
  (is_cplx_to_cplx projection = true ->
   exists l,
     CplxProjectionGainLayer.init is_cplx_to_cplx gain projection = Ok l /\
     CplxProjectionGainLayer.projection l = projection /\
     CplxMultichannelGainLayer.gain (CplxProjectionGainLayer.super l) = gain /\
     CplxMultichannelGainLayer.flatten (CplxProjectionGainLayer.super l) = true).
Proof.
  unfold CplxProjectionGainLayer.init. split; intros Hc; rewrite Hc.
  - split; [reflexivity|]. intros l. discriminate.
  - eexists. split; [reflexivity|]. simpl. auto.
Qed.

End Construction.

Lemma projection_init_checks_capability_witness :
  (Examples.fails Examples.identity_projection = false /\
   CplxProjectionGainLayer.init Examples.fails (Examples.ones_gain 1)
     Examples.identity_projection = Raise AssertionError) /\
  (Examples.passes Examples.identity_projection = true /\
   exists l,
     CplxProjectionGainLayer.init Examples.passes (Examples.ones_gain 1)
       Examples.identity_projection = Ok l /\
     CplxProjectionGainLayer.projection l = Examples.identity_projection).
Proof.
  split.
  - split; [reflexivity|].
    apply (projection_init_checks_capability Examples.projection_fn
             Examples.fails (Examples.ones_gain 1) Examples.identity_projection).
    reflexivity.
  - split; [reflexivity|].
    destruct (projection_init_checks_capability Examples.projection_fn
                Examples.passes (Examples.ones_gain 1)
                Examples.identity_projection) as [_ Hok].
    destruct (Hok eq_refl) as (l & Hl & Hp & _).
    exists l. split; [exact Hl | exact Hp].
Defined.

Section Stateless.

Context {R : Type} `{Scalar R}.
Variables (P Out : Type).
Variable apply_projection : P -> CplxTensor R -> res Out.

(** C8.  Neither [forward] changes an attribute of its layer, whether it
    returns or raises; so a second call on an equal input, made on the
    layer as the first call left it, returns (or raises) what the first
    did: with the gain and the projection as functions, [forward] is a
    function of the input and the collaborators. *)
Theorem forward_stateless :
  (forall (self : CplxMultichannelGainLayer.t R) (input : CplxTensor R),
      let m := CplxMultichannelGainLayer.forward input in
      after m self = self /\
      result m (after m self) = result m self /\
      after m (after m self) = self) /\
  (forall (self : CplxProjectionGainLayer.t P) (input : CplxTensor R),
      let m := CplxProjectionGainLayer.forward apply_projection input in
      after m self = self /\
      result m (after m self) = result m self /\
      after m (after m self) = self).
Proof.
  split; intros self input m.
  - pose proof (forward_keeps_self input self) as Hk. fold m in Hk.
    rewrite !Hk. auto.
  - pose proof (projection_forward_keeps_self P Out apply_projection input self)
      as Hk.
    fold m in Hk. rewrite !Hk. auto.
Qed.

End Stateless.

Section MultichannelGain.

Context {R : Type} `{Scalar R}.

Import CplxMultichannelGainLayer.

(** The shapes returned on an input with at least one element, of shape
    [head ++ [n]], for a gain function with [C * n] outputs per head
    position: [head ++ [C; n]] without flattening and [head ++ [C * n]]
    with it. *)
Theorem forward_shapes_nonempty
    (gain : Tensor R -> res (Tensor R)) (input : CplxTensor R)
    (head : list nat) (n C : nat) :
  has_shape input (head ++ [n]) -> cplx_wf input ->
  gain_channels gain head n C ->
  0 < prod head * n ->
  returns_shapes gain input head C n.
Proof.
  intros Hsh Hwf Hgain Hpos. unfold returns_shapes, init. split.
  - destruct (forward_channels gain false input head n C Hsh Hwf Hgain Hpos)
      as (m & g & _ & _ & _ & _ & _ & _ & Hout).
    do 2 eexists. split; [exact Hout|]. split; reflexivity.
  - destruct (forward_channels gain true input head n C Hsh Hwf Hgain Hpos)
      as (m & g & _ & _ & _ & _ & _ & _ & Hout).
    do 2 eexists. split; [exact Hout|]. split; reflexivity.
Qed.

End MultichannelGain.

Lemma ones_gain_channels (head : list nat) (n C : nat) :
  CplxMultichannelGainLayer.gain_channels (Examples.ones_gain C) head n C.
Proof.
  intros m Hm Wm. eexists. split; [reflexivity|].
  unfold wf, numel. simpl. rewrite repeat_length.
  rewrite Hm, removelast_last, last_last, !prod_app. simpl. split; lia.
Qed.

Lemma ones_gain_wf (C : nat) :
  CplxMultichannelGainLayer.gain_wf (Examples.ones_gain C).
Proof.
  intros m g _ Hg. inversion Hg; subst g.
  unfold wf, numel. simpl. apply repeat_length.
Qed.

Lemma forward_shapes_nonempty_witness :
  0 < prod [] * 3 /\
  CplxMultichannelGainLayer.returns_shapes
    (Examples.ones_gain 2) Examples.input_123 [] 2 3.
Proof.
  split; [simpl; lia|].
  apply (forward_shapes_nonempty (Examples.ones_gain 2) Examples.input_123 [] 3 2).
  - split; reflexivity.
  - split; reflexivity.
  - apply ones_gain_channels.
  - simpl; lia.
Defined.

(** C1.  The code fails the claim on an empty batch.  The input has
    shape [[0; 3]] and the gain returns [2 * 3] elements per head
    position (shape [[0; 6]], a multiple of three as the docstring asks);
    [forward] raises, reporting [(6,)] as incompatible with [3], instead
    of returning parts of shape [[0; 2; 3]]. *)
Lemma forward_shapes_empty_input :
  has_shape Examples.empty_batch ([0] ++ [3]) /\
  cplx_wf Examples.empty_batch /\
  CplxMultichannelGainLayer.gain_channels (Examples.ones_gain 2) [0] 3 2 /\
  0 < 2 /\
  result (CplxMultichannelGainLayer.forward Examples.empty_batch)
    (CplxMultichannelGainLayer.init (Examples.ones_gain 2) false)
  = Raise (ValueError "`gain` (6,) is incompatible with the input complex tensor 3.") /\
  ~ CplxMultichannelGainLayer.returns_shapes
      (Examples.ones_gain 2) Examples.empty_batch [0] 2 3.
Proof.
  split; [split; reflexivity|].
  split; [split; reflexivity|].
  split; [apply ones_gain_channels|].
  split; [lia|].
  split; [reflexivity|].
  intros [(re & im & Hout & _) _].
  vm_compute in Hout. discriminate.
Qed.

Lemma ramp_gain_channels (head : list nat) (n C : nat) :
  CplxMultichannelGainLayer.gain_channels (Examples.ramp_gain C) head n C.
Proof.
  intros m Hm Wm. eexists. split; [reflexivity|].
  unfold wf, numel. simpl. rewrite length_map, length_seq.
  rewrite Hm, removelast_last, last_last, !prod_app. simpl. split; lia.
Qed.

Section PerChannelScaling.

Context {R : Type} `{Scalar R}.

Import CplxMultichannelGainLayer.

(** At every head position [hs], channel [c] and feature [j], the
    parts returned by [forward] hold the real and the imaginary part of
    the input at [(hs, j)], each multiplied by the one gain value at
    [(hs, c, j)]: a real factor common to both parts. *)
Theorem forward_scales_by_gain
    (gain : Tensor R -> res (Tensor R)) (input : CplxTensor R)
    (head hs : list nat) (n C c j : nat) :
  has_shape input (head ++ [n]) -> cplx_wf input ->
  gain_channels gain head n C ->
  in_bounds head hs = true -> c < C -> j < n ->
  exists m g g' gv rv iv re' im',
    cplx_modulus input = Ok m /\ gain m = Ok g /\
    reshape g (map Size head ++ [Infer; Size n]) = Ok g' /\
    tget g' (hs ++ [c; j]) = Some gv /\
    tget (fst input) (hs ++ [j]) = Some rv /\
    tget (snd input) (hs ++ [j]) = Some iv /\
    result (forward input) (init gain false) = Ok (re', im') /\
    tget re' (hs ++ [c; j]) = Some (smul gv rv) /\
    tget im' (hs ++ [c; j]) = Some (smul gv iv).
Proof.
  intros Hsh Hwf Hgain Hhs Hc Hj.
  destruct (forward_element gain input head hs n C c j Hsh Hwf Hgain Hhs Hc Hj)
    as (m & g & gv & rv & iv & Hm & Hg & Hgn & Hpos & Hgv & Hrv & Hiv & Hout).
  destruct (Hout false) as (re' & im' & Hres & Sre & Sim & _ & _ & Ere & Eim).
  assert (Hq : numel g = C * (prod head * n)) by lia.
  exists m, g,
    (mkTensor (head ++ [numel g / (prod head * n); n]) (data g)),
    gv, rv, iv, re', im'.
  split; [exact Hm|]. split; [exact Hg|].
  split.
  { apply reshape_channels_ok; [exact Hpos|].
    rewrite Hq. apply Nat.Div0.mod_mul. }
  split.
  { rewrite tget_channels with (head := head) (C := C) (n := n); auto.
    simpl. rewrite Hq, Nat.div_mul by lia. reflexivity. }
  split; [exact Hrv|]. split; [exact Hiv|]. split; [exact Hres|].
  rewrite !tget_channels with (head := head) (C := C) (n := n); auto.
Qed.

End PerChannelScaling.

Section ScalingAndPhase.

Context {R : Type} `{Scalar R}.

(** The positive scalars. *)
Variable pos : R -> Prop.

Import CplxMultichannelGainLayer.

(** C4 (amended).  At every head position [hs], channel [c] and feature
    [j], the parts returned by [forward] hold the real and the imaginary
    part of the input at [(hs, j)], each multiplied by the one gain value
    at [(hs, c, j)], the same real factor for both; so wherever that gain
    value is positive the phase of the entry is unchanged. *)
Theorem forward_scales_keeps_phase_of_positive_gain
    (gain : Tensor R -> res (Tensor R)) (input : CplxTensor R)
    (head hs : list nat) (n C c j : nat) :
  (forall v : R, smul sone v = v) -> pos sone ->
  has_shape input (head ++ [n]) -> cplx_wf input ->
  gain_channels gain head n C ->
  in_bounds head hs = true -> c < C -> j < n ->
  exists m g g' gv rv iv re' im',
    cplx_modulus input = Ok m /\ gain m = Ok g /\
    reshape g (map Size head ++ [Infer; Size n]) = Ok g' /\
    tget g' (hs ++ [c; j]) = Some gv /\
    tget (fst input) (hs ++ [j]) = Some rv /\
    tget (snd input) (hs ++ [j]) = Some iv /\
    result (forward input) (init gain false) = Ok (re', im') /\
    tget re' (hs ++ [c; j]) = Some (smul gv rv) /\
    tget im' (hs ++ [c; j]) = Some (smul gv iv) /\
    (pos gv -> same_phase pos (rv, iv) (smul gv rv, smul gv iv)).
Proof.
  intros Hone Hpos1 Hsh Hwf Hgain Hhs Hc Hj.
  destruct (forward_scales_by_gain gain input head hs n C c j
              Hsh Hwf Hgain Hhs Hc Hj)
    as (m & g & g' & gv & rv & iv & re' & im'
        & Hm & Hg & Hg' & Hgv & Hrv & Hiv & Hout & Hre & Him).
  exists m, g, g', gv, rv, iv, re', im'.
  repeat (split; [assumption|]).
  intros Hgpos. exists sone, gv. simpl.
  rewrite !Hone. auto.
Qed.

End ScalingAndPhase.

Lemma forward_scales_keeps_phase_of_positive_gain_witness :
  (forall v : Z, smul sone v = v) /\ (0 < sone)%Z /\
  in_bounds [2] [1] = true /\ 1 < 2 /\ 2 < 3 /\
  exists m g g' gv rv iv re' im',
    cplx_modulus Examples.input_2x3 = Ok m /\ Examples.ramp_gain 2 m = Ok g /\
    reshape g (map Size [2] ++ [Infer; Size 3]) = Ok g' /\
    tget g' ([1] ++ [1; 2]) = Some gv /\
    tget (fst Examples.input_2x3) ([1] ++ [2]) = Some rv /\
    tget (snd Examples.input_2x3) ([1] ++ [2]) = Some iv /\
    result (CplxMultichannelGainLayer.forward Examples.input_2x3)
      (CplxMultichannelGainLayer.init (Examples.ramp_gain 2) false)
    = Ok (re', im') /\
    tget re' ([1] ++ [1; 2]) = Some (smul gv rv) /\
    tget im' ([1] ++ [1; 2]) = Some (smul gv iv) /\
    ((0 < gv)%Z ->
     same_phase (fun v : Z => (0 < v)%Z) (rv, iv) (smul gv rv, smul gv iv)).
Proof.
  assert (Hone : forall v : Z, smul sone v = v) by (intros v; apply Z.mul_1_l).
  assert (Hpos : (0 < sone)%Z) by reflexivity.
  split; [exact Hone|]. split; [exact Hpos|].
  split; [reflexivity|]. split; [lia|]. split; [lia|].
  apply (forward_scales_keeps_phase_of_positive_gain (fun v : Z => (0 < v)%Z)
           (Examples.ramp_gain 2) Examples.input_2x3 [2] [1] 3 2 1 2).
  - exact Hone.
  - exact Hpos.
  - split; reflexivity.
  - split; reflexivity.
  - apply ramp_gain_channels.
  - reflexivity.
  - lia.
  - lia.
Defined.

(** C4, as first stated, under a negative gain: the gain is [-1], the
    input is [-1 + 4i], and [forward] returns [1 - 4i], both parts scaled
    by the one real factor but the phase turned by half a turn. *)
Lemma negative_gain_turns_phase :
  has_shape Examples.input_m1_4i ([] ++ [1]) /\
  cplx_wf Examples.input_m1_4i /\
  CplxMultichannelGainLayer.gain_channels Examples.negating_gain [] 1 1 /\
  in_bounds [] [] = true /\
  tget (fst Examples.input_m1_4i) ([] ++ [0]) = Some (-1)%Z /\
  tget (snd Examples.input_m1_4i) ([] ++ [0]) = Some 4%Z /\
  result (CplxMultichannelGainLayer.forward Examples.input_m1_4i)
    (CplxMultichannelGainLayer.init Examples.negating_gain false)
  = Ok (mkTensor [1; 1] [1%Z], mkTensor [1; 1] [(-4)%Z]) /\
  ~ same_phase (fun v : Z => (0 < v)%Z) ((-1)%Z, 4%Z) (1%Z, (-4)%Z).
Proof.
  split; [split; reflexivity|].
  split; [split; reflexivity|].
  split.
  { intros m Hm Wm. eexists. split; [reflexivity|].
    unfold wf, numel. simpl. rewrite repeat_length, Hm. simpl.
    split; reflexivity. }
  split; [reflexivity|]. split; [reflexivity|]. split; [reflexivity|].
  split; [reflexivity|].
  intros (a & b & Ha & Hb & H1 & H2).
  cbn [fst snd smul Scalar_Z] in H1, H2. lia.
Qed.

Section IdentityGain.

Context {R : Type} `{Scalar R}.

Import CplxMultichannelGainLayer.

Lemma gain_ones_channels
    (gain : Tensor R -> res (Tensor R)) (head : list nat) (n C : nat) :
  gain_ones gain head n C -> gain_channels gain head n C.
Proof.
  intros Hones m Hm Wm. destruct (Hones m Hm Wm) as (g & Hg & Hgn & Hgd).
  exists g. split; [exact Hg|]. split; [|exact Hgn].
  unfold wf. rewrite Hgd, repeat_length, Hgn. reflexivity.
Qed.

(** The identity-gain law on inputs with at least one element.  With
    one as the unit of the scalar product, a gain function that returns
    ones, [C * n] per head position, makes [forward] return the input
    repeated [C] times along the channel axis, its values unchanged.  For
    the input [re = [1, 2, 3]], [im = [0, 0, 0]] and two channels that is
    [re = [[1, 2, 3], [1, 2, 3]]], [im = [[0, 0, 0], [0, 0, 0]]]. *)
Theorem identity_gain_nonempty :
  (forall (gain : Tensor R -> res (Tensor R)) (input : CplxTensor R)
          (head : list nat) (n C : nat),
      (forall v : R, smul sone v = v) ->
      has_shape input (head ++ [n]) -> cplx_wf input ->
      gain_ones gain head n C ->
      0 < prod head * n ->
      returns_repeated_input gain input head C n) /\
  result (forward Examples.input_123) (init (Examples.ones_gain 2) false)
  = Ok (mkTensor [2; 3] [1; 2; 3; 1; 2; 3]%Z,
        mkTensor [2; 3] [0; 0; 0; 0; 0; 0]%Z).
Proof.
  split; [|reflexivity].
  intros gain input head n C Hone Hsh Hwf Hones Hpos.
  pose proof (gain_ones_channels gain head n C Hones) as Hgain.
  destruct (forward_channels gain false input head n C Hsh Hwf Hgain Hpos)
    as (m & g & Hm & Hg & Wg & Hgn & _ & _ & Hout).
  eexists. split; [exact Hout|].
  pose proof Hsh as [Hre Him]. pose proof Hwf as [Wre Wim].
  unfold wf, numel in Wre, Wim.
  rewrite Hre, prod_app in Wre. rewrite Him, prod_app in Wim.
  simpl in Wre, Wim. rewrite Nat.mul_1_r in Wre, Wim.
  unfold wf in Wg. rewrite Hgn in Wg.
  split; [split; reflexivity|]. split.
  { split; unfold wf, numel; simpl;
      apply bcast_data_length;
      rewrite ?prod_app; simpl; try lia;
      apply broadcast_shapes_channels. }
  intros hs c j Hhs Hc Hj.
  destruct (cplx_modulus_ok input (head ++ [n]) Hsh Hwf) as (m0 & Hm0 & Hms & Hmw).
  destruct (Hones m0 Hms Hmw) as (g0 & Hg0 & _ & Hgd).
  assert (m0 = m) by congruence. subst m0.
  assert (g0 = g) by congruence. subst g0.
  assert (Hidx : (ravel head hs * C + c) * n + j < prod head * (C * n)).
  { pose proof (ravel_lt head hs Hhs). nia. }
  destruct (bcast_channels_nth head hs C n c j (data g) (data (fst input))
              Wg Wre Hhs Hc Hj) as (gv & rv & Hgv & Hrv & Hre').
  destruct (bcast_channels_nth head hs C n c j (data g) (data (snd input))
              Wg Wim Hhs Hc Hj) as (gv' & iv & Hgv' & Hiv & Him').
  rewrite Hgd, nth_error_repeat in Hgv, Hgv' by exact Hidx.
  inversion Hgv; subst gv. inversion Hgv'; subst gv'.
  rewrite Hone in Hre', Him'.
  rewrite !tget_channels with (head := head) (C := C) (n := n); auto.
  rewrite (tget_snoc _ head hs n j Hre Hhs Hj).
  rewrite (tget_snoc _ head hs n j Him Hhs Hj).
  simpl data. rewrite Hre', Him', Hrv, Hiv. auto.
Qed.

End IdentityGain.

Lemma ones_gain_ones (head : list nat) (n C : nat) :
  CplxMultichannelGainLayer.gain_ones (Examples.ones_gain C) head n C.
Proof.
  intros m Hm Wm. eexists. split; [reflexivity|].
  unfold numel. simpl.
  rewrite Hm, removelast_last, last_last, !prod_app. simpl.
  split; [lia|]. f_equal. lia.
Qed.

Lemma identity_gain_nonempty_witness :
  (forall v : Z, smul sone v = v) /\
  0 < prod [] * 3 /\
  CplxMultichannelGainLayer.returns_repeated_input
    (Examples.ones_gain 2) Examples.input_123 [] 2 3.
Proof.
  assert (Hone : forall v : Z, smul sone v = v) by (intros v; apply Z.mul_1_l).
  split; [exact Hone|]. split; [simpl; lia|].
  apply (proj1 identity_gain_nonempty (Examples.ones_gain 2) Examples.input_123
           [] 3 2).
  - exact Hone.
  - split; reflexivity.
  - split; reflexivity.
  - apply ones_gain_ones.
  - simpl; lia.
Defined.

(** C3.  The code fails the claim on an empty batch.  The gain
    returns ones, [2 * 3] per head position, and [forward] raises,
    reporting [(6,)] as incompatible with [3], instead of returning the
    input repeated. *)
Lemma identity_gain_empty_input :
  has_shape Examples.empty_batch ([0] ++ [3]) /\
  cplx_wf Examples.empty_batch /\
  CplxMultichannelGainLayer.gain_ones (Examples.ones_gain 2) [0] 3 2 /\
  result (CplxMultichannelGainLayer.forward Examples.empty_batch)
    (CplxMultichannelGainLayer.init (Examples.ones_gain 2) false)
  = Raise (ValueError "`gain` (6,) is incompatible with the input complex tensor 3.") /\
  ~ CplxMultichannelGainLayer.returns_repeated_input
      (Examples.ones_gain 2) Examples.empty_batch [0] 2 3.
Proof.
  split; [split; reflexivity|].
  split; [split; reflexivity|].
  split; [apply ones_gain_ones|].
  split; [reflexivity|].
  intros (out & Hout & _). vm_compute in Hout. discriminate.
Qed.

Section FlattenRoundTrip.

Context {R : Type} `{Scalar R}.

Import CplxMultichannelGainLayer.

Lemma infer_size_exact (sh : list nat) (k : nat) :
  k = prod sh -> infer_size (map Size sh) k = Ok sh.
Proof.
  intros ->. unfold infer_size.
  rewrite count_infer_sizes, known_size_sizes, Nat.eqb_refl, fill_infer_sizes.
  reflexivity.
Qed.

Lemma one_reshape_apart_intro (head : list nat) (n : nat) (d : list R) :
  0 < prod head ->
  one_reshape_apart head n (mkTensor (head ++ [1; n]) d) (mkTensor (head ++ [n]) d).
Proof.
  intros HP. unfold one_reshape_apart. simpl.
  repeat (split; [reflexivity|]). split.
  - apply (reshape_flatten_ok (mkTensor (head ++ [1; n]) d) head n HP).
    unfold numel. simpl. rewrite prod_app. simpl. lia.
  - unfold reshape. change [Size 1; Size n] with (map Size [1; n]).
    rewrite <- map_app, infer_size_exact; [reflexivity|].
    unfold numel. simpl. rewrite !prod_app. simpl. lia.
Qed.

(** C6.  With a gain function of one channel ([n] outputs per head
    position) the two settings of [flatten] compute the same: both raise
    the same error, or both return, and then each part returned with
    [flatten=True] holds the elements of the part returned with
    [flatten=False], in the same order, and one [reshape] (merging, or
    splitting off, the channel axis) turns either into the other.  On an
    input with at least one element both return. *)
Theorem flatten_single_channel_roundtrip
    (gain : Tensor R -> res (Tensor R)) (input : CplxTensor R)
    (head : list nat) (n : nat) :
  has_shape input (head ++ [n]) -> cplx_wf input ->
  gain_channels gain head n 1 ->
  (0 < prod head * n ->
   exists out, result (forward input) (init gain false) = Ok out) /\
  match result (forward input) (init gain false),
        result (forward input) (init gain true) with
  | Ok (re1, im1), Ok (re2, im2) =>
      one_reshape_apart head n re1 re2 /\ one_reshape_apart head n im1 im2
  | Raise e1, Raise e2 => e1 = e2
  | _, _ => False
  end.
Proof.
  intros Hsh Hwf Hgain. unfold init.
  destruct (Nat.eq_dec (prod head * n) 0) as [Hz|Hz].
  - split; [lia|].
    destruct (cplx_modulus_ok input (head ++ [n]) Hsh Hwf) as (m & Hm & Hms & Hmw).
    destruct (Hgain m Hms Hmw) as (g & Hg & _ & _).
    destruct input as [re im]. destruct Hsh as [Hre _]. simpl in Hre.
    rewrite (forward_incompatible (mk gain false) re im m g head n Hre Hm Hg)
      by (left; exact Hz).
    rewrite (forward_incompatible (mk gain true) re im m g head n Hre Hm Hg)
      by (left; exact Hz).
    reflexivity.
  - assert (Hpos : 0 < prod head * n) by lia.
    destruct (forward_channels gain false input head n 1 Hsh Hwf Hgain Hpos)
      as (m & g & Hm & Hg & _ & _ & _ & _ & Hstacked).
    destruct (forward_channels gain true input head n 1 Hsh Hwf Hgain Hpos)
      as (m' & g' & Hm' & Hg' & _ & _ & _ & _ & Hflat).
    assert (m' = m) by congruence. subst m'.
    assert (g' = g) by congruence. subst g'.
    rewrite Nat.mul_1_l in Hflat.
    split; [intros _; eexists; exact Hstacked|].
    rewrite Hstacked, Hflat.
    split; apply one_reshape_apart_intro; nia.
Qed.

End FlattenRoundTrip.

Lemma flatten_single_channel_roundtrip_witness :
  (0 < prod [2] * 3 ->
   exists out,
     result (CplxMultichannelGainLayer.forward Examples.input_2x3)
       (CplxMultichannelGainLayer.init (Examples.ramp_gain 1) false) = Ok out) /\
  match result (CplxMultichannelGainLayer.forward Examples.input_2x3)
          (CplxMultichannelGainLayer.init (Examples.ramp_gain 1) false),
        result (CplxMultichannelGainLayer.forward Examples.input_2x3)
          (CplxMultichannelGainLayer.init (Examples.ramp_gain 1) true) with
  | Ok (re1, im1), Ok (re2, im2) =>
      CplxMultichannelGainLayer.one_reshape_apart [2] 3 re1 re2 /\
      CplxMultichannelGainLayer.one_reshape_apart [2] 3 im1 im2
  | Raise e1, Raise e2 => e1 = e2
  | _, _ => False
  end.
Proof.
  apply (flatten_single_channel_roundtrip (Examples.ramp_gain 1)
           Examples.input_2x3 [2] 3).
  - split; reflexivity.
  - split; reflexivity.
  - apply ramp_gain_channels.
Defined.

(** ** The shape-mismatch error *)

Lemma string_app_assoc (a b c : string) :
  ((a ++ b) ++ c)%string = (a ++ b ++ c)%string.
Proof.
  induction a as [|ch a IH]; simpl; [reflexivity|]. rewrite IH. reflexivity.
Qed.

Lemma incompatible_msg_contains (tail : list nat) (n : nat) :
  contains (str_tuple tail) (CplxMultichannelGainLayer.incompatible_msg tail n) /\
  contains (str_nat n) (CplxMultichannelGainLayer.incompatible_msg tail n).
Proof.
  unfold contains, CplxMultichannelGainLayer.incompatible_msg. split.
  - exists "`gain` ".
    exists (" is incompatible with the " ++ "input complex tensor "
            ++ str_nat n ++ ".")%string.
    reflexivity.
  - exists ("`gain` " ++ str_tuple tail ++ " is incompatible with the "
            ++ "input complex tensor ")%string.
    exists ".".
    rewrite !string_app_assoc. reflexivity.
Qed.

Section ShapeMismatch.

Context {R : Type} `{Scalar R}.

Import CplxMultichannelGainLayer.

Lemma not_reshapable (head : list nat) (n k : nat) :
  (forall C, k <> prod (head ++ [C; n])) ->
  prod head * n = 0 \/ k mod (prod head * n) <> 0.
Proof.
  intros Hno.
  destruct (Nat.eq_dec (prod head * n) 0) as [Hz|Hz]; [left; exact Hz|].
  right. intros Hmod.
  apply Nat.Div0.div_exact in Hmod.
  apply (Hno (k / (prod head * n))).
  rewrite prod_app. simpl. rewrite Nat.mul_1_r.
  rewrite Hmod at 1. lia.
Qed.

(** C5 (amended).  When the output of the gain function cannot be
    reshaped into [head ++ [C; n]] for any [C], [forward] raises
    [ValueError]; the message holds the shape of the gain tensor past the
    first [length head] axes, written as a tuple, and the feature count
    [n].  The layer is left as it was, and every later call with the same
    gain function on an input of the same shape for which the gain
    function returns a tensor of the same shape again (so every
    repetition of the call) raises the same error. *)
Theorem incompatible_gain_raises
    (self : t R) (input : CplxTensor R) (m g : Tensor R)
    (head : list nat) (n : nat) :
  shape (fst input) = head ++ [n] ->
  cplx_modulus input = Ok m -> gain self m = Ok g ->
  (forall C, numel g <> prod (head ++ [C; n])) ->
  let tail := skipn (length head) (shape g) in
  let msg := incompatible_msg tail n in
  result (forward input) self = Raise (ValueError msg) /\
  contains (str_tuple tail) msg /\
  contains (str_nat n) msg /\
  after (forward input) self = self /\
  result (forward input) (after (forward input) self) = Raise (ValueError msg) /\
  forall (input' : CplxTensor R) (m' g' : Tensor R),
    shape (fst input') = head ++ [n] ->
    cplx_modulus input' = Ok m' -> gain self m' = Ok g' ->
    shape g' = shape g ->
    result (forward input') (after (forward input) self)
    = Raise (ValueError msg).
Proof.
  intros Hre Hm Hg Hno tail msg.
  pose proof (not_reshapable head n (numel g) Hno) as Hbad.
  assert (Hlater : forall (input' : CplxTensor R) (m' g' : Tensor R),
             shape (fst input') = head ++ [n] ->
             cplx_modulus input' = Ok m' -> gain self m' = Ok g' ->
             shape g' = shape g ->
             result (forward input') (after (forward input) self)
             = Raise (ValueError msg)).
  { intros [re' im'] m' g' Hre' Hm' Hg' Hsame. simpl in Hre'.
    rewrite (forward_keeps_self input self).
    unfold msg, tail. rewrite <- Hsame.
    apply (forward_incompatible self re' im' m' g' head n); try assumption.
    unfold numel in *. rewrite Hsame. exact Hbad. }
  destruct (incompatible_msg_contains tail n) as [Ht Hn].
  split.
  { destruct input as [re im]. simpl in Hre.
    apply (forward_incompatible self re im m g head n); assumption. }
  split; [exact Ht|]. split; [exact Hn|].
  split; [apply forward_keeps_self|].
  split; [apply (Hlater input m g Hre Hm Hg eq_refl) | exact Hlater].
Qed.

End ShapeMismatch.

Lemma incompatible_gain_raises_witness :
  (forall C, @numel Z (mkTensor [5] [1; 2; 3; 4; 5]%Z) <> prod ([] ++ [C; 3])) /\
  result (CplxMultichannelGainLayer.forward Examples.input_123)
    (CplxMultichannelGainLayer.init Examples.five_gain true)
  = Raise (ValueError "`gain` (5,) is incompatible with the input complex tensor 3.") /\
  contains "(5,)" "`gain` (5,) is incompatible with the input complex tensor 3." /\
  contains "3" "`gain` (5,) is incompatible with the input complex tensor 3." /\
  result (CplxMultichannelGainLayer.forward Examples.input_223)
    (after (CplxMultichannelGainLayer.forward Examples.input_123)
       (CplxMultichannelGainLayer.init Examples.five_gain true))
  = Raise (ValueError "`gain` (5,) is incompatible with the input complex tensor 3.").
Proof.
  assert (Hno : forall C,
             @numel Z (mkTensor [5] [1; 2; 3; 4; 5]%Z) <> prod ([] ++ [C; 3])).
  { intros C. unfold numel. simpl. lia. }
  split; [exact Hno|].
  assert (Hm : cplx_modulus Examples.input_123 = Ok (mkTensor [3] [1; 2; 3]%Z))
    by reflexivity.
  assert (Hg : Examples.five_gain (mkTensor [3] [1; 2; 3]%Z)
               = Ok (mkTensor [5] [1; 2; 3; 4; 5]%Z)) by reflexivity.
  assert (Hm' : cplx_modulus Examples.input_223 = Ok (mkTensor [3] [2; 2; 3]%Z))
    by reflexivity.
  destruct (incompatible_gain_raises
              (CplxMultichannelGainLayer.init Examples.five_gain true)
              Examples.input_123
              (mkTensor [3] [1; 2; 3]%Z) (mkTensor [5] [1; 2; 3; 4; 5]%Z)
              [] 3 eq_refl Hm Hg Hno)
    as (Hraise & Ht & Hn & _ & _ & Hlater).
  split; [exact Hraise|]. split; [exact Ht|]. split; [exact Hn|].
  apply (Hlater Examples.input_223 (mkTensor [3] [2; 2; 3]%Z)
           (mkTensor [5] [1; 2; 3; 4; 5]%Z) eq_refl Hm' eq_refl eq_refl).
Defined.

(** C5, as first stated, for a gain function whose number of outputs
    depends on the values: the first call raises the error, and the next
    call with the same gain function on an input of the same shape
    returns. *)
Lemma incompatible_then_returns :
  shape (fst Examples.input_123) = [] ++ [3] /\
  shape (fst Examples.input_223) = [] ++ [3] /\
  cplx_modulus Examples.input_123 = Ok (mkTensor [3] [1; 2; 3]%Z) /\
  Examples.value_dependent_gain (mkTensor [3] [1; 2; 3]%Z)
  = Ok (mkTensor [5] [1; 2; 3; 4; 5]%Z) /\
  (forall C, @numel Z (mkTensor [5] [1; 2; 3; 4; 5]%Z) <> prod ([] ++ [C; 3])) /\
  result (CplxMultichannelGainLayer.forward Examples.input_123)
    (CplxMultichannelGainLayer.init Examples.value_dependent_gain false)
  = Raise (ValueError "`gain` (5,) is incompatible with the input complex tensor 3.") /\
  result (CplxMultichannelGainLayer.forward Examples.input_223)
    (after (CplxMultichannelGainLayer.forward Examples.input_123)
       (CplxMultichannelGainLayer.init Examples.value_dependent_gain false))
  = Ok (mkTensor [1; 3] [2; 2; 3]%Z, mkTensor [1; 3] [0; 0; 0]%Z).
Proof.
  split; [reflexivity|]. split; [reflexivity|].
  split; [reflexivity|]. split; [reflexivity|].
  split; [intros C; unfold numel; simpl; lia|].
  split; reflexivity.
Qed.

Section MismatchExactly.

Context {R : Type} `{Scalar R}.

Import CplxMultichannelGainLayer.

(** C9.  On an input of shape [head ++ [n]] for which the gain function
    returns a tensor [g], [forward] raises the shape-mismatch error
    exactly when the element count of [g] is not divisible by
    [prod head * n], as [reshape] tests it.  When it is, whatever the
    shape of [g] itself, [g] is reshaped into [head ++ [C; n]] with its
    elements in place and [forward] returns.  So for [head = [2]],
    [n = 3] a gain tensor of shape [[3; 2]] is read as [[2; 1; 3]]. *)
Theorem incompatible_iff_not_divisible :
  (forall (self : t R) (input : CplxTensor R) (m g : Tensor R)
          (head : list nat) (n : nat),
      has_shape input (head ++ [n]) ->
      cplx_modulus input = Ok m -> gain self m = Ok g ->
      (raises_incompatible self input head n g <->
       ~ divides_elements (prod head * n) (numel g)) /\
      (divides_elements (prod head * n) (numel g) ->
       exists g' out,
         reshape g (map Size head ++ [Infer; Size n]) = Ok g' /\
         shape g' = head ++ [numel g / (prod head * n); n] /\
         data g' = data g /\
         result (forward input) self = Ok out)) /\
  result (forward Examples.input_2x3) (init Examples.transposed_gain false)
  = Ok (mkTensor [2; 1; 3] [3; 0; 15; 32; 0; 42]%Z,
        mkTensor [2; 1; 3] [4; 2; 36; 24; 10; 144]%Z).
Proof.
  split; [|reflexivity].
  intros self [re im] m g head n [Hre Him] Hm Hg. simpl in Hre, Him.
  unfold raises_incompatible, divides_elements. split.
  - split.
    + intros Hraise [Hpos Hmod].
      rewrite (forward_ok self re im m g head n Hre Him Hm Hg Hpos Hmod)
        in Hraise.
      discriminate.
    + intros Hnot.
      apply (forward_incompatible self re im m g head n Hre Hm Hg).
      destruct (Nat.eq_dec (prod head * n) 0) as [Hz|Hz]; [left; exact Hz|].
      right. intros Hmod. apply Hnot. split; [lia | exact Hmod].
  - intros [Hpos Hmod].
    do 2 eexists. split; [apply reshape_channels_ok; assumption|].
    split; [reflexivity|]. split; [reflexivity|].
    apply (forward_ok self re im m g head n Hre Him Hm Hg Hpos Hmod).
Qed.

End MismatchExactly.

Lemma incompatible_iff_not_divisible_witness :
  has_shape Examples.input_2x3 ([2] ++ [3]) /\
  divides_elements (prod [2] * 3)
    (@numel Z (mkTensor [3; 2] [1; 2; 3; 4; 5; 6]%Z)) /\
  exists g' out,
    reshape (mkTensor [3; 2] [1; 2; 3; 4; 5; 6]%Z)
      (map Size [2] ++ [Infer; Size 3]) = Ok g' /\
    shape g' = [2] ++ [6 / (prod [2] * 3); 3] /\
    data g' = [1; 2; 3; 4; 5; 6]%Z /\
    result (CplxMultichannelGainLayer.forward Examples.input_2x3)
      (CplxMultichannelGainLayer.init Examples.transposed_gain false) = Ok out.
Proof.
  assert (Hsh : has_shape Examples.input_2x3 ([2] ++ [3])) by (split; reflexivity).
  assert (Hdiv : divides_elements (prod [2] * 3)
                   (@numel Z (mkTensor [3; 2] [1; 2; 3; 4; 5; 6]%Z))).
  { split; [simpl; lia | reflexivity]. }
  assert (Hm : cplx_modulus Examples.input_2x3
               = Ok (mkTensor [2; 3] [5; 1; 13; 10; 2; 25]%Z)) by reflexivity.
  split; [exact Hsh|]. split; [exact Hdiv|].
  exact (proj2 (proj1 incompatible_iff_not_divisible
                  (CplxMultichannelGainLayer.init Examples.transposed_gain false)
                  Examples.input_2x3
                  (mkTensor [2; 3] [5; 1; 13; 10; 2; 25]%Z)
                  (mkTensor [3; 2] [1; 2; 3; 4; 5; 6]%Z)
                  [2] 3 Hsh Hm eq_refl) Hdiv).
Defined.

(** ** The projection layer *)

Section ProjectionGain.

Context {R : Type} `{Scalar R}.
Variables (P Out : Type).
Variable is_cplx_to_cplx : P -> bool.
Variable apply_projection : P -> CplxTensor R -> res Out.

Import CplxProjectionGainLayer.

Lemma init_ok_inv (gain : Tensor R -> res (Tensor R)) (p : P) (l : t P) :
  init is_cplx_to_cplx gain p = Ok l ->
  l = mk (CplxMultichannelGainLayer.mk gain true) p.
Proof.
  unfold init, CplxMultichannelGainLayer.init.
  destruct (is_cplx_to_cplx p); [|discriminate].
  intros Hl. inversion Hl. reflexivity.
Qed.

(** What the base [forward] returned to the projection layer, when it
    returned. *)
Lemma flattened_parts
    (gain : Tensor R -> res (Tensor R)) (input : CplxTensor R)
    (re_g im_g : Tensor R) (head : list nat) (n C : nat) :
  has_shape input (head ++ [n]) -> cplx_wf input ->
  CplxMultichannelGainLayer.gain_wf gain ->
  result (CplxMultichannelGainLayer.forward input)
    (CplxMultichannelGainLayer.mk gain true) = Ok (re_g, im_g) ->
  shape re_g = head ++ [C * n] ->
  shape im_g = head ++ [C * n] /\ wf re_g /\ wf im_g.
Proof.
  intros Hsh Hwf Hgw Hout Hshape.
  destruct (forward_returns_inv _ input _ head n Hsh Hwf Hout)
    as (m & g & Hm & _ & Wm & Hg & Hpos & Hmod).
  pose proof (Hgw m g Wm Hg) as Wg. unfold wf in Wg.
  pose proof Hsh as [Hre Him]. pose proof Hwf as [Wre Wim].
  destruct input as [re im]. simpl in Hre, Him, Wre, Wim.
  rewrite (forward_ok _ re im m g head n Hre Him Hm Hg Hpos Hmod) in Hout.
  cbv zeta in Hout. simpl in Hout. inversion Hout; subst re_g im_g; clear Hout.
  simpl in Hshape. apply app_inv_head in Hshape.
  set (C' := numel g / (prod head * n)) in *.
  assert (Hq : numel g = prod head * n * C').
  { apply Nat.Div0.div_exact. exact Hmod. }
  unfold wf, numel in Wre, Wim.
  rewrite Hre, prod_app in Wre. rewrite Him, prod_app in Wim.
  simpl in Wre, Wim.
  split; [simpl; rewrite Hshape; reflexivity|].
  split; unfold wf, numel; simpl;
    rewrite (bcast_data_length smul (head ++ [C'; n]) (head ++ [1; n])
               (head ++ [C'; n]));
    rewrite ?prod_app; simpl; try lia;
    apply broadcast_shapes_channels.
Qed.

(** C2.  When the base [forward] (flattening) returns parts of shape
    [head ++ [C * n]], the projection layer concatenates, for the real and
    for the imaginary part on its own, the part returned first and the
    input part second along the last axis, which gives shape
    [head ++ [(C + 1) * n]], and returns what the projection returns on
    that pair.  With the identity for projection and a gain of ones with
    one channel, the real part [[1, 2]] comes back as [[1, 2, 1, 2]]. *)
Theorem projection_forward_concat :
  (forall (gain : Tensor R -> res (Tensor R)) (p : P) (l : t P)
          (input : CplxTensor R) (re_g im_g : Tensor R)
          (head : list nat) (n C : nat),
      init is_cplx_to_cplx gain p = Ok l ->
      has_shape input (head ++ [n]) -> cplx_wf input ->
      CplxMultichannelGainLayer.gain_wf gain ->
      result (CplxMultichannelGainLayer.forward input) (super l)
      = Ok (re_g, im_g) ->
      shape re_g = head ++ [C * n] ->
      exists re im,
        cat_last re_g (fst input) = Ok re /\
        cat_last im_g (snd input) = Ok im /\
        concat_of head (C * n) n re_g (fst input) re /\
        concat_of head (C * n) n im_g (snd input) im /\
        has_shape (re, im) (head ++ [(C + 1) * n]) /\
        result (forward apply_projection input) l = apply_projection p (re, im)) /\
  (forall (im1 im2 : Z) (l : t Examples.projection_fn),
      init Examples.passes (Examples.ones_gain 1) Examples.identity_projection
      = Ok l ->
      result (forward Examples.apply_fn (Examples.input_12 im1 im2)) l
      = Ok (Examples.vec [1; 2; 1; 2]%Z, Examples.vec [im1; im2; im1; im2])).
Proof.
  split.
  - intros gain p l input re_g im_g head n C Hl Hsh Hwf Hgw Hout Hshape.
    apply init_ok_inv in Hl. subst l. simpl in Hout.
    destruct (flattened_parts gain input re_g im_g head n C Hsh Hwf Hgw Hout Hshape)
      as (Hshape' & Wre_g & Wim_g).
    destruct Hsh as [Hre Him]. destruct Hwf as [Wre Wim].
    destruct (cat_last_rows re_g (fst input) head (C * n) n Hshape Hre Wre_g Wre)
      as (re & Hcre & Sre & _ & Ere).
    destruct (cat_last_rows im_g (snd input) head (C * n) n Hshape' Him Wim_g Wim)
      as (im & Hcim & Sim & _ & Eim).
    exists re, im.
    split; [exact Hcre|]. split; [exact Hcim|].
    split; [split; assumption|]. split; [split; assumption|].
    split.
    + split; simpl; rewrite ?Sre, ?Sim; f_equal; f_equal; lia.
    + apply (projection_forward_run P Out apply_projection
               (mk (CplxMultichannelGainLayer.mk gain true) p)
               input re_g im_g re im); assumption.
  - intros im1 im2 l Hl. cbv in Hl. inversion Hl; subst l; clear Hl.
    unfold result. cbn. destruct im1, im2; reflexivity.
Qed.

End ProjectionGain.

Lemma projection_forward_concat_witness :
  has_shape (Examples.input_12 3 4) ([] ++ [2]) /\
  cplx_wf (Examples.input_12 3 4) /\
  exists re im,
    cat_last (Examples.vec [1; 2]%Z) (fst (Examples.input_12 3 4)) = Ok re /\
    cat_last (Examples.vec [3; 4]%Z) (snd (Examples.input_12 3 4)) = Ok im /\
    concat_of [] (1 * 2) 2 (Examples.vec [1; 2]%Z) (fst (Examples.input_12 3 4)) re /\
    concat_of [] (1 * 2) 2 (Examples.vec [3; 4]%Z) (snd (Examples.input_12 3 4)) im /\
    has_shape (re, im) ([] ++ [(1 + 1) * 2]) /\
    result (CplxProjectionGainLayer.forward Examples.apply_fn (Examples.input_12 3 4))
      (CplxProjectionGainLayer.mk
         (CplxMultichannelGainLayer.mk (Examples.ones_gain 1) true)
         Examples.identity_projection)
    = Examples.apply_fn Examples.identity_projection (re, im).
Proof.
  assert (Hsh : has_shape (Examples.input_12 3 4) ([] ++ [2])) by (split; reflexivity).
  assert (Hwf : cplx_wf (Examples.input_12 3 4)) by (split; reflexivity).
  split; [exact Hsh|]. split; [exact Hwf|].
  apply (proj1 (projection_forward_concat Examples.projection_fn
                  (CplxTensor Z) Examples.passes Examples.apply_fn)
           (Examples.ones_gain 1) Examples.identity_projection
           (CplxProjectionGainLayer.mk
              (CplxMultichannelGainLayer.mk (Examples.ones_gain 1) true)
              Examples.identity_projection)
           (Examples.input_12 3 4)
           (Examples.vec [1; 2]%Z) (Examples.vec [3; 4]%Z) [] 2 1).
  - reflexivity.
  - exact Hsh.
  - exact Hwf.
  - apply ones_gain_wf.
  - reflexivity.
  - reflexivity.
Defined.

Section ChannelMajor.

Context {R : Type} `{Scalar R}.
Variables (P Out : Type).
Variable is_cplx_to_cplx : P -> bool.
Variable apply_projection : P -> CplxTensor R -> res Out.

Import CplxProjectionGainLayer.

(** C10.  Flattened, the parts returned by the base [forward] are laid
    out channel after channel: under every head position [hs], the
    element at [c * n + j] of the last axis is the gain value at
    [(hs, c, j)] times the input at [(hs, j)].  So the tensors handed to
    the projection hold, under [hs], the [n] scaled features of channel 0,
    then those of channel 1 and so on up to channel [C - 1], and from
    [C * n] on the input itself. *)
Theorem flatten_channel_major
    (gain : Tensor R -> res (Tensor R)) (p : P) (l : t P)
    (input : CplxTensor R) (head hs : list nat) (n C c j : nat) :
  init is_cplx_to_cplx gain p = Ok l ->
  has_shape input (head ++ [n]) -> cplx_wf input ->
  CplxMultichannelGainLayer.gain_channels gain head n C ->
  in_bounds head hs = true -> c < C -> j < n ->
  exists m g g' gv rv iv re_g im_g zre zim,
    cplx_modulus input = Ok m /\ gain m = Ok g /\
    reshape g (map Size head ++ [Infer; Size n]) = Ok g' /\
    tget g' (hs ++ [c; j]) = Some gv /\
    tget (fst input) (hs ++ [j]) = Some rv /\
    tget (snd input) (hs ++ [j]) = Some iv /\
    result (CplxMultichannelGainLayer.forward input)
      (CplxMultichannelGainLayer.init gain true) = Ok (re_g, im_g) /\
    tget re_g (hs ++ [c * n + j]) = Some (smul gv rv) /\
    tget im_g (hs ++ [c * n + j]) = Some (smul gv iv) /\
    cat_last re_g (fst input) = Ok zre /\
    cat_last im_g (snd input) = Ok zim /\
    result (forward apply_projection input) l = apply_projection p (zre, zim) /\
    tget zre (hs ++ [c * n + j]) = Some (smul gv rv) /\
    tget zim (hs ++ [c * n + j]) = Some (smul gv iv) /\
    tget zre (hs ++ [C * n + j]) = Some rv /\
    tget zim (hs ++ [C * n + j]) = Some iv.
Proof.
  intros Hl Hsh Hwf Hgain Hhs Hc Hj.
  apply init_ok_inv in Hl. subst l.
  destruct (forward_element gain input head hs n C c j Hsh Hwf Hgain Hhs Hc Hj)
    as (m & g & gv & rv & iv & Hm & Hg & Hgn & Hpos & Hgv & Hrv & Hiv & Hout).
  destruct (Hout true)
    as (re_g & im_g & Hres & Sre & Sim & Wre_g & Wim_g & Ere & Eim).
  assert (Hq : numel g = C * (prod head * n)) by lia.
  assert (Hk : c * n + j < C * n) by nia.
  assert (Hoff : ravel head hs * (C * n) + (c * n + j)
                 = (ravel head hs * C + c) * n + j) by lia.
  assert (Gre : tget re_g (hs ++ [c * n + j]) = Some (smul gv rv)).
  { rewrite (tget_snoc re_g head hs (C * n) (c * n + j) Sre Hhs Hk).
    rewrite Hoff. exact Ere. }
  assert (Gim : tget im_g (hs ++ [c * n + j]) = Some (smul gv iv)).
  { rewrite (tget_snoc im_g head hs (C * n) (c * n + j) Sim Hhs Hk).
    rewrite Hoff. exact Eim. }
  destruct Hsh as [Hre Him]. destruct Hwf as [Wre Wim].
  destruct (cat_last_rows re_g (fst input) head (C * n) n Sre Hre Wre_g Wre)
    as (zre & Hcre & _ & _ & Zre).
  destruct (cat_last_rows im_g (snd input) head (C * n) n Sim Him Wim_g Wim)
    as (zim & Hcim & _ & _ & Zim).
  destruct (Zre hs Hhs) as [Zre1 Zre2]. destruct (Zim hs Hhs) as [Zim1 Zim2].
  exists m, g,
    (mkTensor (head ++ [numel g / (prod head * n); n]) (data g)),
    gv, rv, iv, re_g, im_g, zre, zim.
  split; [exact Hm|]. split; [exact Hg|].
  split.
  { apply reshape_channels_ok; [exact Hpos|].
    rewrite Hq. apply Nat.Div0.mod_mul. }
  split.
  { rewrite tget_channels with (head := head) (C := C) (n := n); auto.
    simpl. rewrite Hq, Nat.div_mul by lia. reflexivity. }
  split; [exact Hrv|]. split; [exact Hiv|]. split; [exact Hres|].
  split; [exact Gre|]. split; [exact Gim|].
  split; [exact Hcre|]. split; [exact Hcim|].
  split.
  { apply (projection_forward_run P Out apply_projection
             (mk (CplxMultichannelGainLayer.mk gain true) p)
             input re_g im_g zre zim); assumption. }
  rewrite (Zre1 _ Hk), (Zim1 _ Hk), (Zre2 _ Hj), (Zim2 _ Hj).
  auto.
Qed.

End ChannelMajor.

Lemma flatten_channel_major_witness :
  in_bounds [2] [1] = true /\ 1 < 2 /\ 2 < 3 /\
  exists m g g' gv rv iv re_g im_g zre zim,
    cplx_modulus Examples.input_2x3 = Ok m /\ Examples.ramp_gain 2 m = Ok g /\
    reshape g (map Size [2] ++ [Infer; Size 3]) = Ok g' /\
    tget g' ([1] ++ [1; 2]) = Some gv /\
    tget (fst Examples.input_2x3) ([1] ++ [2]) = Some rv /\
    tget (snd Examples.input_2x3) ([1] ++ [2]) = Some iv /\
    result (CplxMultichannelGainLayer.forward Examples.input_2x3)
      (CplxMultichannelGainLayer.init (Examples.ramp_gain 2) true)
    = Ok (re_g, im_g) /\
    tget re_g ([1] ++ [1 * 3 + 2]) = Some (smul gv rv) /\
    tget im_g ([1] ++ [1 * 3 + 2]) = Some (smul gv iv) /\
    cat_last re_g (fst Examples.input_2x3) = Ok zre /\
    cat_last im_g (snd Examples.input_2x3) = Ok zim /\
    result (CplxProjectionGainLayer.forward Examples.apply_fn Examples.input_2x3)
      (CplxProjectionGainLayer.mk
         (CplxMultichannelGainLayer.mk (Examples.ramp_gain 2) true)
         Examples.identity_projection)
    = Examples.apply_fn Examples.identity_projection (zre, zim) /\
    tget zre ([1] ++ [1 * 3 + 2]) = Some (smul gv rv) /\
    tget zim ([1] ++ [1 * 3 + 2]) = Some (smul gv iv) /\
    tget zre ([1] ++ [2 * 3 + 2]) = Some rv /\
    tget zim ([1] ++ [2 * 3 + 2]) = Some iv.
Proof.
  split; [reflexivity|]. split; [lia|]. split; [lia|].
  apply (flatten_channel_major Examples.projection_fn (CplxTensor Z)
           Examples.passes Examples.apply_fn
           (Examples.ramp_gain 2) Examples.identity_projection
           (CplxProjectionGainLayer.mk
              (CplxMultichannelGainLayer.mk (Examples.ramp_gain 2) true)
              Examples.identity_projection)
           Examples.input_2x3 [2] [1] 3 2 1 2).
  - reflexivity.
  - split; reflexivity.
  - split; reflexivity.
  - apply ramp_gain_channels.
  - reflexivity.
  - lia.
  - lia.
Defined.

(** * Further behaviour of the two layers *)

(** ** Errors of the collaborators and of the input *)

Section CollaboratorErrors.

Context {R : Type} `{Scalar R}.
Variables (P Out : Type).
Variable apply_projection : P -> CplxTensor R -> res Out.

Lemma forward_gain_raises
    (self : CplxMultichannelGainLayer.t R) (input : CplxTensor R)
    (m : Tensor R) (e : exn) :
  cplx_modulus input = Ok m ->
  CplxMultichannelGainLayer.gain self m = Raise e ->
  result (CplxMultichannelGainLayer.forward input) self = Raise e.
Proof.
  intros Hm Hg. destruct input as [re im].
  unfold result, CplxMultichannelGainLayer.forward. cbv [mbind attr call mret].
  rewrite Hm. cbv beta iota. rewrite Hg. reflexivity.
Qed.

Lemma projection_forward_base_raises
    (self : CplxProjectionGainLayer.t P) (input : CplxTensor R) (e : exn) :
  result (CplxMultichannelGainLayer.forward input)
    (CplxProjectionGainLayer.super self) = Raise e ->
  result (CplxProjectionGainLayer.forward apply_projection input) self = Raise e.
Proof.
  intros Hb. destruct input as [re_z im_z].
  unfold result in *. unfold CplxProjectionGainLayer.forward.
  cbv [mbind CplxProjectionGainLayer.via_super attr call].
  destruct (CplxMultichannelGainLayer.forward (re_z, im_z)
              (CplxProjectionGainLayer.super self)) as [r base].
  simpl in Hb. subst r. reflexivity.
Qed.

(** X1.  The gain function is called outside the [try]: whatever it
    raises, a [RuntimeError] included, leaves [forward] as it is, not
    translated into the shape-mismatch [ValueError], and whatever the
    shape of the input.  The layer is left unchanged, and the projection
    layer raises the same error, whatever its projection. *)
Theorem gain_error_propagates
    (self : CplxMultichannelGainLayer.t R) (input : CplxTensor R)
    (m : Tensor R) (e : exn) :
  cplx_modulus input = Ok m ->
  CplxMultichannelGainLayer.gain self m = Raise e ->
  result (CplxMultichannelGainLayer.forward input) self = Raise e /\
  after (CplxMultichannelGainLayer.forward input) self = self /\
  forall p : P,
    result (CplxProjectionGainLayer.forward apply_projection input)
      (CplxProjectionGainLayer.mk self p) = Raise e.
Proof.
  intros Hm Hg.
  pose proof (forward_gain_raises self input m e Hm Hg) as Hr.
  split; [exact Hr|]. split; [apply forward_keeps_self|].
  intros p. apply projection_forward_base_raises. exact Hr.
Qed.

(** X2.  A zero-dimensional input has no last axis to unpack: once the
    gain function has returned, [forward] raises the [ValueError] of the
    unpacking, whatever the gain tensor is. *)
Theorem forward_scalar_input
    (self : CplxMultichannelGainLayer.t R) (input : CplxTensor R)
    (m g : Tensor R) :
  shape (fst input) = [] ->
  cplx_modulus input = Ok m ->
  CplxMultichannelGainLayer.gain self m = Ok g ->
  result (CplxMultichannelGainLayer.forward input) self
  = Raise (ValueError "not enough values to unpack (expected at least 1, got 0)").
Proof.
  intros Hre Hm Hg. destruct input as [re im]. simpl in Hre.
  unfold result, CplxMultichannelGainLayer.forward. cbv [mbind attr call mret].
  rewrite Hm. cbv beta iota. rewrite Hg. cbv beta iota.
  rewrite Hre. reflexivity.
Qed.

(** X3.  The message reports the axes of the gain tensor past the first
    [length head] ones: when the gain tensor has no more axes than there
    are leading axes in the input, the tuple in the message is empty. *)
Theorem incompatible_msg_without_tail
    (self : CplxMultichannelGainLayer.t R) (input : CplxTensor R)
    (m g : Tensor R) (head : list nat) (n : nat) :
  shape (fst input) = head ++ [n] ->
  cplx_modulus input = Ok m ->
  CplxMultichannelGainLayer.gain self m = Ok g ->
  length (shape g) <= length head ->
  prod head * n = 0 \/ numel g mod (prod head * n) <> 0 ->
  result (CplxMultichannelGainLayer.forward input) self
  = Raise (ValueError
             ("`gain` () is incompatible with the input complex tensor "
              ++ str_nat n ++ ".")).
Proof.
  intros Hre Hm Hg Hrank Hbad. destruct input as [re im]. simpl in Hre.
  rewrite (forward_incompatible self re im m g head n Hre Hm Hg Hbad).
  rewrite skipn_all2 by exact Hrank. reflexivity.
Qed.

End CollaboratorErrors.

Lemma gain_error_propagates_witness :
  result (CplxMultichannelGainLayer.forward Examples.input_123)
    (CplxMultichannelGainLayer.init Examples.failing_gain false)
  = Raise (RuntimeError "mat1 and mat2 shapes cannot be multiplied") /\
  forall p : Examples.projection_fn,
    result (CplxProjectionGainLayer.forward Examples.apply_fn Examples.input_123)
      (CplxProjectionGainLayer.mk
         (CplxMultichannelGainLayer.init Examples.failing_gain false) p)
    = Raise (RuntimeError "mat1 and mat2 shapes cannot be multiplied").
Proof.
  assert (Hm : cplx_modulus Examples.input_123 = Ok (mkTensor [3] [1; 2; 3]%Z))
    by reflexivity.
  destruct (gain_error_propagates Examples.projection_fn (CplxTensor Z)
              Examples.apply_fn
              (CplxMultichannelGainLayer.init Examples.failing_gain false)
              Examples.input_123 (mkTensor [3] [1; 2; 3]%Z)
              (RuntimeError "mat1 and mat2 shapes cannot be multiplied")
              Hm eq_refl) as (Hr & _ & Hp).
  split; [exact Hr | exact Hp].
Defined.

Lemma forward_scalar_input_witness :
  shape (fst Examples.scalar_input) = [] /\
  result (CplxMultichannelGainLayer.forward Examples.scalar_input)
    (CplxMultichannelGainLayer.init (Examples.ones_gain 1) false)
  = Raise (ValueError "not enough values to unpack (expected at least 1, got 0)").
Proof.
  split; [reflexivity|].
  assert (Hm : cplx_modulus Examples.scalar_input = Ok (mkTensor [] [5%Z]))
    by reflexivity.
  apply (forward_scalar_input
           (CplxMultichannelGainLayer.init (Examples.ones_gain 1) false)
           Examples.scalar_input (mkTensor [] [5%Z]) (mkTensor [0] [])).
  - reflexivity.
  - exact Hm.
  - reflexivity.
Defined.

Lemma incompatible_msg_without_tail_witness :
  length [5] <= length [2] /\
  (prod [2] * 3 = 0 \/ 5 mod (prod [2] * 3) <> 0) /\
  result (CplxMultichannelGainLayer.forward Examples.input_2x3)
    (CplxMultichannelGainLayer.init Examples.five_gain false)
  = Raise (ValueError "`gain` () is incompatible with the input complex tensor 3.").
Proof.
  assert (Hrank : length [5] <= length [2]) by (simpl; lia).
  assert (Hbad : prod [2] * 3 = 0 \/ 5 mod (prod [2] * 3) <> 0).
  { right. simpl. lia. }
  assert (Hm : cplx_modulus Examples.input_2x3
               = Ok (mkTensor [2; 3] [5; 1; 13; 10; 2; 25]%Z)) by reflexivity.
  split; [exact Hrank|]. split; [exact Hbad|].
  apply (incompatible_msg_without_tail
           (CplxMultichannelGainLayer.init Examples.five_gain false)
           Examples.input_2x3
           (mkTensor [2; 3] [5; 1; 13; 10; 2; 25]%Z)
           (mkTensor [5] [1; 2; 3; 4; 5]%Z) [2] 3).
  - reflexivity.
  - exact Hm.
  - reflexivity.
  - exact Hrank.
  - exact Hbad.
Defined.

(** ** What [forward] returns, for any gain function *)

Section ReturnedParts.

Context {R : Type} `{Scalar R}.

Import CplxMultichannelGainLayer.

Lemma bcast_channels_length (head : list nat) (C n : nat) (dg dt : list R) :
  length dg = prod head * (C * n) ->
  length dt = prod head * n ->
  length (bcast_data smul (head ++ [C; n]) (head ++ [1; n]) dg dt)
  = prod head * (C * n).
Proof.
  intros Hdg Hdt.
  rewrite (bcast_data_length smul (head ++ [C; n]) (head ++ [1; n])
             (head ++ [C; n]));
    rewrite ?prod_app; simpl; try lia.
  apply broadcast_shapes_channels.
Qed.

(** A call that returns, in full: the channel count is the quotient
    inferred by [reshape], and both parts are broadcast products. *)
Lemma forward_returns_parts
    (self : t R) (input out : CplxTensor R) (head : list nat) (n : nat) :
  has_shape input (head ++ [n]) -> cplx_wf input ->
  gain_wf (gain self) ->
  result (forward input) self = Ok out ->
  exists m g C,
    cplx_modulus input = Ok m /\ gain self m = Ok g /\
    0 < prod head * n /\
    C = numel g / (prod head * n) /\
    numel g = prod head * (C * n) /\
    length (data g) = prod head * (C * n) /\
    out = (mkTensor (head ++ (if flatten self then [C * n] else [C; n]))
             (bcast_data smul (head ++ [C; n]) (head ++ [1; n])
                (data g) (data (fst input))),
           mkTensor (head ++ (if flatten self then [C * n] else [C; n]))
             (bcast_data smul (head ++ [C; n]) (head ++ [1; n])
                (data g) (data (snd input)))).
Proof.
  intros Hsh Hwf Hgw Hout.
  destruct (forward_returns_inv self input out head n Hsh Hwf Hout)
    as (m & g & Hm & _ & Wm & Hg & Hpos & Hmod).
  pose proof (Hgw m g Wm Hg) as Wg. unfold wf in Wg.
  destruct Hsh as [Hre Him]. destruct input as [re im]. simpl in Hre, Him.
  rewrite (forward_ok self re im m g head n Hre Him Hm Hg Hpos Hmod) in Hout.
  cbv zeta in Hout. inversion Hout; subst out; clear Hout.
  assert (Hq : numel g = prod head * n * (numel g / (prod head * n))).
  { apply Nat.Div0.div_exact. exact Hmod. }
  exists m, g, (numel g / (prod head * n)).
  repeat (split; [assumption || reflexivity || lia|]).
  reflexivity.
Qed.

(** X4.  Whatever the gain function, when [forward] returns on a complex
    tensor of shape [head ++ [n]], what it returns is again a complex
    tensor: both parts have the one shape, [head ++ [C; n]] (or
    [head ++ [C * n]] when flattening) for the channel count
    [C = numel gain / (prod head * n)], and each part holds as many
    elements as the gain tensor, [C] times those of the input part. *)
Theorem forward_returns_complex_tensor
    (self : t R) (input out : CplxTensor R) (head : list nat) (n : nat) :
  has_shape input (head ++ [n]) -> cplx_wf input ->
  gain_wf (gain self) ->
  result (forward input) self = Ok out ->
  exists m g C,
    cplx_modulus input = Ok m /\ gain self m = Ok g /\
    C = numel g / (prod head * n) /\
    has_shape out (head ++ (if flatten self then [C * n] else [C; n])) /\
    cplx_wf out /\
    numel (fst out) = numel g /\ numel (snd out) = numel g /\
    numel (fst out) = C * numel (fst input).
Proof.
  intros Hsh Hwf Hgw Hout.
  destruct (forward_returns_parts self input out head n Hsh Hwf Hgw Hout)
    as (m & g & C & Hm & Hg & Hpos & HC & Hgn & Hgl & ->).
  destruct Hsh as [Hre Him]. destruct Hwf as [Wre Wim].
  unfold wf, numel in Wre, Wim.
  rewrite Hre, prod_app in Wre. rewrite Him, prod_app in Wim.
  simpl in Wre, Wim. rewrite Nat.mul_1_r in Wre, Wim.
  exists m, g, C.
  split; [exact Hm|]. split; [exact Hg|]. split; [exact HC|].
  assert (Hsz : prod (head ++ (if flatten self then [C * n] else [C; n]))
                = prod head * (C * n)).
  { rewrite prod_app. destruct (flatten self); simpl; lia. }
  split; [split; reflexivity|].
  split.
  { split; unfold wf, numel; simpl; rewrite Hsz;
      apply bcast_channels_length; assumption. }
  unfold numel. simpl. rewrite Hsz.
  fold (numel g). rewrite Hre, prod_app. simpl. lia.
Qed.

Lemma channels_merged_intro (head : list nat) (C n : nat) (d : list R) :
  0 < prod head ->
  channels_merged head C n
    (mkTensor (head ++ [C; n]) d) (mkTensor (head ++ [C * n]) d).
Proof.
  intros HP. unfold channels_merged. simpl.
  repeat (split; [reflexivity|]). split.
  - apply (reshape_flatten_ok (mkTensor (head ++ [C; n]) d) head (C * n) HP).
    unfold numel. simpl. rewrite prod_app. simpl. lia.
  - unfold reshape. change [Size C; Size n] with (map Size [C; n]).
    rewrite <- map_app, infer_size_exact; [reflexivity|].
    unfold numel. simpl. rewrite !prod_app. simpl. lia.
Qed.

(** X5.  For any gain function and any number of channels, [flatten]
    changes the shape alone: on one input the two settings raise the same
    error, or both return, and then the parts returned with
    [flatten=True] hold the elements of the parts returned with
    [flatten=False] in the same order, one [reshape] apart in either
    direction. *)
Theorem flatten_changes_shape_only
    (gain : Tensor R -> res (Tensor R)) (input : CplxTensor R)
    (head : list nat) (n : nat) :
  has_shape input (head ++ [n]) -> cplx_wf input ->
  match result (forward input) (init gain false),
        result (forward input) (init gain true) with
  | Ok (re1, im1), Ok (re2, im2) =>
      exists C,
        channels_merged head C n re1 re2 /\ channels_merged head C n im1 im2
  | Raise e1, Raise e2 => e1 = e2
  | _, _ => False
  end.
Proof.
  intros Hsh Hwf. unfold init.
  destruct (cplx_modulus_ok input (head ++ [n]) Hsh Hwf) as (m & Hm & _ & _).
  destruct (gain m) as [g|e] eqn:Hg.
  - destruct input as [re im]. destruct Hsh as [Hre Him]. simpl in Hre, Him.
    destruct (Nat.eq_dec (prod head * n) 0) as [Hz|Hz].
    { rewrite (forward_incompatible (mk gain false) re im m g head n Hre Hm Hg)
        by (left; exact Hz).
      rewrite (forward_incompatible (mk gain true) re im m g head n Hre Hm Hg)
        by (left; exact Hz).
      reflexivity. }
    destruct (Nat.eq_dec (numel g mod (prod head * n)) 0) as [Hd|Hd].
    + rewrite (forward_ok (mk gain false) re im m g head n Hre Him Hm Hg)
        by (assumption || lia).
      rewrite (forward_ok (mk gain true) re im m g head n Hre Him Hm Hg)
        by (assumption || lia).
      cbv zeta. simpl flatten. cbv iota.
      exists (numel g / (prod head * n)).
      split; apply channels_merged_intro; nia.
    + rewrite (forward_incompatible (mk gain false) re im m g head n Hre Hm Hg)
        by (right; exact Hd).
      rewrite (forward_incompatible (mk gain true) re im m g head n Hre Hm Hg)
        by (right; exact Hd).
      reflexivity.
  - rewrite (forward_gain_raises (mk gain false) input m e Hm Hg).
    rewrite (forward_gain_raises (mk gain true) input m e Hm Hg).
    reflexivity.
Qed.

(** X6.  [forward] reads the gain tensor through [reshape], and
    through its shape in the error message alone.  For two gain
    functions whose tensors hold the same elements (say
    [... x (C * n)] and [... x C x n]): when the element count is
    divisible by [prod head * n], as [reshape] tests it, both make
    [forward] return the same; when it is not, both make it raise the
    shape-mismatch error, each with the tail of its own shape in the
    message. *)
Theorem gain_layout_irrelevant
    (self1 self2 : t R) (input : CplxTensor R) (m g1 g2 : Tensor R)
    (head : list nat) (n : nat) :
  has_shape input (head ++ [n]) ->
  cplx_modulus input = Ok m ->
  gain self1 m = Ok g1 -> gain self2 m = Ok g2 ->
  flatten self1 = flatten self2 ->
  data g1 = data g2 -> numel g1 = numel g2 ->
  (divides_elements (prod head * n) (numel g1) ->
   exists out,
     result (forward input) self1 = Ok out /\
     result (forward input) self2 = Ok out) /\
  (~ divides_elements (prod head * n) (numel g1) ->
   result (forward input) self1
   = Raise (ValueError (incompatible_msg (skipn (length head) (shape g1)) n)) /\
   result (forward input) self2
   = Raise (ValueError (incompatible_msg (skipn (length head) (shape g2)) n))).
Proof.
  intros [Hre Him] Hm Hg1 Hg2 Hfl Hd Hn.
  destruct input as [re im]. simpl in Hre, Him.
  unfold divides_elements. split.
  - intros [Hpos Hmod].
    rewrite (forward_ok self1 re im m g1 head n Hre Him Hm Hg1 Hpos Hmod).
    rewrite (forward_ok self2 re im m g2 head n Hre Him Hm Hg2 Hpos)
      by (rewrite <- Hn; exact Hmod).
    cbv zeta. rewrite Hfl, Hd, Hn.
    eexists. split; reflexivity.
  - intros Hnot.
    assert (Hbad : prod head * n = 0 \/ numel g1 mod (prod head * n) <> 0).
    { destruct (Nat.eq_dec (prod head * n) 0) as [Hz|Hz]; [left; exact Hz|].
      right. intros Hmod. apply Hnot. split; [lia | exact Hmod]. }
    split.
    + apply (forward_incompatible self1 re im m g1 head n Hre Hm Hg1 Hbad).
    + apply (forward_incompatible self2 re im m g2 head n Hre Hm Hg2).
      rewrite <- Hn. exact Hbad.
Qed.

End ReturnedParts.

Lemma ramp_gain_wf (C : nat) :
  CplxMultichannelGainLayer.gain_wf (Examples.ramp_gain C).
Proof.
  intros m g _ Hg. inversion Hg; subst g.
  unfold wf, numel. simpl. rewrite length_map, length_seq. reflexivity.
Qed.

Lemma forward_returns_complex_tensor_witness :
  exists m g C,
    cplx_modulus Examples.input_2x3 = Ok m /\ Examples.ramp_gain 2 m = Ok g /\
    C = numel g / (prod [2] * 3) /\
    has_shape
      (mkTensor [2; 2; 3] [3; 0; 15; 12; 0; 30; 56; 0; 63; 80; 0; 84]%Z,
       mkTensor [2; 2; 3] [4; 2; 36; 16; 5; 72; 42; 16; 216; 60; 22; 288]%Z)
      ([2] ++ [C; 3]) /\
    cplx_wf
      (mkTensor [2; 2; 3] [3; 0; 15; 12; 0; 30; 56; 0; 63; 80; 0; 84]%Z,
       mkTensor [2; 2; 3] [4; 2; 36; 16; 5; 72; 42; 16; 216; 60; 22; 288]%Z) /\
    12 = numel g /\ 12 = numel g /\ 12 = C * numel (fst Examples.input_2x3).
Proof.
  apply (forward_returns_complex_tensor
           (CplxMultichannelGainLayer.init (Examples.ramp_gain 2) false)
           Examples.input_2x3
           (mkTensor [2; 2; 3] [3; 0; 15; 12; 0; 30; 56; 0; 63; 80; 0; 84]%Z,
            mkTensor [2; 2; 3] [4; 2; 36; 16; 5; 72; 42; 16; 216; 60; 22; 288]%Z)
           [2] 3).
  - split; reflexivity.
  - split; reflexivity.
  - apply ramp_gain_wf.
  - reflexivity.
Defined.

Lemma flatten_changes_shape_only_witness :
  has_shape Examples.input_2x3 ([2] ++ [3]) /\
  cplx_wf Examples.input_2x3 /\
  match result (CplxMultichannelGainLayer.forward Examples.input_2x3)
          (CplxMultichannelGainLayer.init (Examples.ramp_gain 2) false),
        result (CplxMultichannelGainLayer.forward Examples.input_2x3)
          (CplxMultichannelGainLayer.init (Examples.ramp_gain 2) true) with
  | Ok (re1, im1), Ok (re2, im2) =>
      exists C,
        CplxMultichannelGainLayer.channels_merged [2] C 3 re1 re2 /\
        CplxMultichannelGainLayer.channels_merged [2] C 3 im1 im2
  | Raise e1, Raise e2 => e1 = e2
  | _, _ => False
  end.
Proof.
  assert (Hsh : has_shape Examples.input_2x3 ([2] ++ [3])) by (split; reflexivity).
  assert (Hwf : cplx_wf Examples.input_2x3) by (split; reflexivity).
  split; [exact Hsh|]. split; [exact Hwf|].
  apply (flatten_changes_shape_only (Examples.ramp_gain 2) Examples.input_2x3
           [2] 3 Hsh Hwf).
Defined.

Lemma gain_layout_irrelevant_witness :
  data (mkTensor [2; 6] (map Z.of_nat (seq 1 12)))
  = data (mkTensor [2; 2; 3] (map Z.of_nat (seq 1 12))) /\
  divides_elements (prod [2] * 3) 12 /\
  exists out,
    result (CplxMultichannelGainLayer.forward Examples.input_2x3)
      (CplxMultichannelGainLayer.init (Examples.ramp_gain 2) true) = Ok out /\
    result (CplxMultichannelGainLayer.forward Examples.input_2x3)
      (CplxMultichannelGainLayer.init (Examples.stacked_ramp_gain 2) true)
    = Ok out.
Proof.
  assert (Hdiv : divides_elements (prod [2] * 3) 12).
  { split; [simpl; lia | reflexivity]. }
  assert (Hm : cplx_modulus Examples.input_2x3
               = Ok (mkTensor [2; 3] [5; 1; 13; 10; 2; 25]%Z)) by reflexivity.
  assert (Hsh : has_shape Examples.input_2x3 ([2] ++ [3])) by (split; reflexivity).
  split; [reflexivity|]. split; [exact Hdiv|].
  exact (proj1 (gain_layout_irrelevant
                  (CplxMultichannelGainLayer.init (Examples.ramp_gain 2) true)
                  (CplxMultichannelGainLayer.init (Examples.stacked_ramp_gain 2) true)
                  Examples.input_2x3
                  (mkTensor [2; 3] [5; 1; 13; 10; 2; 25]%Z)
                  (mkTensor [2; 6] (map Z.of_nat (seq 1 12)))
                  (mkTensor [2; 2; 3] (map Z.of_nat (seq 1 12)))
                  [2] 3 Hsh Hm eq_refl eq_refl eq_refl eq_refl eq_refl) Hdiv).
Defined.

(** ** The projection layer on what the base layer returns *)

Section RowsTogether.

Context {A : Type}.

Lemma firstn_plus (a b : nat) (l : list A) :
  firstn (a + b) l = firstn a l ++ firstn b (skipn a l).
Proof.
  revert l. induction a as [|a IH]; intros l; simpl.
  - reflexivity.
  - destruct l as [|x l]; simpl.
    + rewrite firstn_nil. reflexivity.
    + rewrite IH. reflexivity.
Qed.

Lemma rows_from (l : list A) (n P s : nat) :
  flat_map (fun i => firstn n (skipn (i * n) l)) (seq s P)
  = firstn (P * n) (skipn (s * n) l).
Proof.
  revert s. induction P as [|P IH]; intros s; simpl.
  - reflexivity.
  - rewrite IH, firstn_plus, skipn_skipn. simpl. reflexivity.
Qed.

(** The rows of a list, put together again. *)
Lemma rows_concat (l : list A) (n P : nat) :
  length l = P * n ->
  flat_map (fun i => firstn n (skipn (i * n) l)) (seq 0 P) = l.
Proof.
  intros Hl. rewrite rows_from. simpl. rewrite <- Hl. apply firstn_all.
Qed.

End RowsTogether.

Lemma shape_eqb_eq (s1 s2 : list nat) : shape_eqb s1 s2 = true -> s1 = s2.
Proof.
  revert s2. induction s1 as [|a s1 IH]; intros [|b s2] He; simpl in He;
    try discriminate; auto.
  apply andb_prop in He. destruct He as [Hab He].
  apply Nat.eqb_eq in Hab. subst b. f_equal. auto.
Qed.

Section ProjectionOnParts.

Context {R : Type} `{Scalar R}.
Variables (P Out : Type).
Variable apply_projection : P -> CplxTensor R -> res Out.

(** [cat] of a part without channels and the input part is the input
    part. *)
Lemma cat_last_no_channels (t : Tensor R) (head : list nat) (n : nat) :
  shape t = head ++ [n] -> wf t -> 0 < prod head * n ->
  cat_last (mkTensor (head ++ [0]) []) t = Ok t.
Proof.
  intros Ht Wt Hpos.
  rewrite (cat_last_nonscalar (mkTensor (head ++ [0]) []) t head head 0 n
             eq_refl Ht).
  destruct (skipped_by_cat (mkTensor (head ++ [0]) [])); [reflexivity|].
  destruct (skipped_by_cat t) eqn:St.
  { destruct (skipped_by_cat_snoc t head n Ht St) as [_ ->]. lia. }
  rewrite shape_eqb_refl. f_equal.
  unfold wf, numel in Wt. rewrite Ht, prod_app in Wt. simpl in Wt.
  rewrite Nat.mul_1_r in Wt.
  destruct t as [st dt]. simpl in *. subst st. f_equal.
  rewrite flat_map_ext with (g := fun i => firstn n (skipn (i * n) dt))
    by reflexivity.
  apply rows_concat. exact Wt.
Qed.

(** X7.  A gain tensor without elements passes the divisibility test on
    every non-empty input: [forward] infers zero channels and returns
    empty parts of shape [head ++ [0; n]] instead of raising, and the
    projection layer then hands its projection the input itself. *)
Theorem zero_channels_pass_input
    (gain : Tensor R -> res (Tensor R)) (input : CplxTensor R)
    (m g : Tensor R) (head : list nat) (n : nat) :
  has_shape input (head ++ [n]) -> cplx_wf input ->
  0 < prod head * n ->
  cplx_modulus input = Ok m -> gain m = Ok g ->
  data g = [] -> numel g = 0 ->
  result (CplxMultichannelGainLayer.forward input)
    (CplxMultichannelGainLayer.mk gain false)
  = Ok (mkTensor (head ++ [0; n]) [], mkTensor (head ++ [0; n]) []) /\
  forall p : P,
    result (CplxProjectionGainLayer.forward apply_projection input)
      (CplxProjectionGainLayer.mk (CplxMultichannelGainLayer.mk gain true) p)
    = apply_projection p input.
Proof.
  intros Hsh Hwf Hpos Hm Hg Hgd Hgn.
  pose proof Hsh as [Hre Him]. pose proof Hwf as [Wre Wim].
  assert (Lre : length (data (fst input)) = prod head * n).
  { unfold wf, numel in Wre. rewrite Hre, prod_app in Wre. simpl in Wre. lia. }
  assert (Lim : length (data (snd input)) = prod head * n).
  { unfold wf, numel in Wim. rewrite Him, prod_app in Wim. simpl in Wim. lia. }
  assert (Hnil : forall d, length d = prod head * n ->
            bcast_data smul (head ++ [0; n]) (head ++ [1; n]) [] d = []).
  { intros d Hd. apply length_zero_iff_nil.
    rewrite bcast_channels_length; simpl; lia. }
  assert (Hmod : numel g mod (prod head * n) = 0).
  { rewrite Hgn. apply Nat.Div0.mod_0_l. }
  destruct input as [re im]. simpl in Hre, Him, Lre, Lim.
  split.
  - rewrite (forward_ok (CplxMultichannelGainLayer.mk gain false)
               re im m g head n Hre Him Hm Hg Hpos Hmod).
    cbv zeta. rewrite Hgn, Nat.Div0.div_0_l, Hgd. simpl.
    rewrite !Hnil by assumption. reflexivity.
  - intros p.
    apply (projection_forward_run P Out apply_projection
             (CplxProjectionGainLayer.mk
                (CplxMultichannelGainLayer.mk gain true) p)
             (re, im)
             (mkTensor (head ++ [0]) []) (mkTensor (head ++ [0]) []) re im).
    + cbn [CplxProjectionGainLayer.super].
      rewrite (forward_ok (CplxMultichannelGainLayer.mk gain true)
                 re im m g head n Hre Him Hm Hg Hpos Hmod).
      cbv zeta. rewrite Hgn, Nat.Div0.div_0_l, Hgd. simpl.
      rewrite !Hnil by assumption. reflexivity.
    + apply (cat_last_no_channels re head n Hre (proj1 Hwf) Hpos).
    + apply (cat_last_no_channels im head n Him (proj2 Hwf) Hpos).
Qed.

(** X8.  On a complex tensor the concatenation of the projection layer
    never fails: whatever the base [forward] raises the projection layer
    raises, and when the base returns, the projection is called on a
    complex tensor of shape [head ++ [(C + 1) * n]] and its result, or its
    error, is the result of the layer. *)
Theorem projection_forward_cat_never_raises
    (gain : Tensor R -> res (Tensor R)) (input : CplxTensor R)
    (head : list nat) (n : nat) :
  has_shape input (head ++ [n]) -> cplx_wf input ->
  CplxMultichannelGainLayer.gain_wf gain ->
  match result (CplxMultichannelGainLayer.forward input)
          (CplxMultichannelGainLayer.mk gain true) with
  | Raise e =>
      forall p : P,
        result (CplxProjectionGainLayer.forward apply_projection input)
          (CplxProjectionGainLayer.mk (CplxMultichannelGainLayer.mk gain true) p)
        = Raise e
  | Ok (re_g, im_g) =>
      exists C re im,
        cat_last re_g (fst input) = Ok re /\
        cat_last im_g (snd input) = Ok im /\
        has_shape (re, im) (head ++ [(C + 1) * n]) /\
        cplx_wf (re, im) /\
        forall p : P,
          result (CplxProjectionGainLayer.forward apply_projection input)
            (CplxProjectionGainLayer.mk (CplxMultichannelGainLayer.mk gain true) p)
          = apply_projection p (re, im)
  end.
Proof.
  intros Hsh Hwf Hgw.
  destruct (result (CplxMultichannelGainLayer.forward input)
              (CplxMultichannelGainLayer.mk gain true))
    as [[re_g im_g]|e] eqn:Hbase.
  - destruct (forward_returns_parts (CplxMultichannelGainLayer.mk gain true)
                input (re_g, im_g) head n Hsh Hwf Hgw Hbase)
      as (m & g & C & Hm & Hg & Hpos & HC & Hgn & Hgl & Hout).
    simpl in Hout. inversion Hout; subst re_g im_g; clear Hout.
    destruct Hsh as [Hre Him]. destruct Hwf as [Wre Wim].
    assert (Lre : length (data (fst input)) = prod head * n).
    { unfold wf, numel in Wre. rewrite Hre, prod_app in Wre. simpl in Wre. lia. }
    assert (Lim : length (data (snd input)) = prod head * n).
    { unfold wf, numel in Wim. rewrite Him, prod_app in Wim. simpl in Wim. lia. }
    set (re_g := mkTensor (head ++ [C * n])
                   (bcast_data smul (head ++ [C; n]) (head ++ [1; n])
                      (data g) (data (fst input)))) in *.
    set (im_g := mkTensor (head ++ [C * n])
                   (bcast_data smul (head ++ [C; n]) (head ++ [1; n])
                      (data g) (data (snd input)))) in *.
    assert (Wre_g : wf re_g).
    { unfold wf, numel. simpl. rewrite prod_app. simpl.
      rewrite bcast_channels_length by assumption. lia. }
    assert (Wim_g : wf im_g).
    { unfold wf, numel. simpl. rewrite prod_app. simpl.
      rewrite bcast_channels_length by assumption. lia. }
    destruct (cat_last_rows re_g (fst input) head (C * n) n eq_refl Hre Wre_g Wre)
      as (re & Hcre & Sre & Wcre & _).
    destruct (cat_last_rows im_g (snd input) head (C * n) n eq_refl Him Wim_g Wim)
      as (im & Hcim & Sim & Wcim & _).
    exists C, re, im.
    split; [exact Hcre|]. split; [exact Hcim|].
    split.
    { split; simpl; rewrite ?Sre, ?Sim; f_equal; f_equal; lia. }
    split; [split; assumption|].
    intros p.
    apply (projection_forward_run P Out apply_projection
             (CplxProjectionGainLayer.mk
                (CplxMultichannelGainLayer.mk gain true) p)
             input re_g im_g re im); assumption.
  - intros p. apply projection_forward_base_raises. exact Hbase.
Qed.

(** X9.  The projection layer needs the [flatten=True] that its
    [__init__] sets.  On a layer whose [flatten] has been switched off,
    the parts returned by the base [forward] have one axis more than the
    input, and the concatenation raises [RuntimeError] before the
    projection is reached. *)
Theorem projection_forward_needs_flatten
    (gain : Tensor R -> res (Tensor R)) (p : P) (input : CplxTensor R)
    (m g : Tensor R) (head : list nat) (n : nat) :
  has_shape input (head ++ [n]) ->
  cplx_modulus input = Ok m -> gain m = Ok g ->
  0 < prod head * n -> numel g mod (prod head * n) = 0 ->
  exists msg,
    result (CplxProjectionGainLayer.forward apply_projection input)
      (CplxProjectionGainLayer.mk (CplxMultichannelGainLayer.mk gain false) p)
    = Raise (RuntimeError msg).
Proof.
  intros [Hre Him] Hm Hg Hpos Hmod.
  destruct input as [re_z im_z]. simpl in Hre, Him.
  pose proof (forward_ok (CplxMultichannelGainLayer.mk gain false)
                re_z im_z m g head n Hre Him Hm Hg Hpos Hmod) as Hbase.
  cbv zeta in Hbase. simpl CplxMultichannelGainLayer.flatten in Hbase.
  cbv iota in Hbase.
  set (C := numel g / (prod head * n)) in *.
  eexists.
  unfold result in *. unfold CplxProjectionGainLayer.forward.
  cbv [mbind CplxProjectionGainLayer.via_super attr call].
  simpl CplxProjectionGainLayer.super.
  destruct (CplxMultichannelGainLayer.forward (re_z, im_z)
              (CplxMultichannelGainLayer.mk gain false)) as [r base].
  simpl in Hbase. subst r. cbv beta iota zeta.
  match goal with
  | |- context [cat_last ?a re_z] =>
      rewrite (cat_last_nonscalar a re_z (head ++ [C]) head n n);
      [| simpl; rewrite <- app_assoc; reflexivity | exact Hre];
      destruct (skipped_by_cat a) eqn:Sa
  end.
  { apply skipped_by_cat_snoc with (head := head ++ [C]) (n := n) in Sa.
    - destruct Sa as [Sa _]. destruct head; discriminate.
    - simpl. rewrite <- app_assoc. reflexivity. }
  destruct (skipped_by_cat re_z) eqn:Sz.
  { destruct (skipped_by_cat_snoc re_z head n Hre Sz) as [_ ->]. lia. }
  destruct (shape_eqb (head ++ [C]) head) eqn:Se.
  { apply shape_eqb_eq in Se. apply (f_equal (@length nat)) in Se.
    rewrite length_app in Se. simpl in Se. lia. }
  reflexivity.
Qed.

End ProjectionOnParts.

Lemma zero_channels_pass_input_witness :
  0 < prod [] * 3 /\
  result (CplxMultichannelGainLayer.forward Examples.input_123)
    (CplxMultichannelGainLayer.mk Examples.no_gain false)
  = Ok (mkTensor ([] ++ [0; 3]) [], mkTensor ([] ++ [0; 3]) []) /\
  forall p : Examples.projection_fn,
    result (CplxProjectionGainLayer.forward Examples.apply_fn Examples.input_123)
      (CplxProjectionGainLayer.mk
         (CplxMultichannelGainLayer.mk Examples.no_gain true) p)
    = Examples.apply_fn p Examples.input_123.
Proof.
  assert (Hpos : 0 < prod [] * 3) by (simpl; lia).
  assert (Hm : cplx_modulus Examples.input_123 = Ok (mkTensor [3] [1; 2; 3]%Z))
    by reflexivity.
  split; [exact Hpos|].
  apply (zero_channels_pass_input Examples.projection_fn (CplxTensor Z)
           Examples.apply_fn Examples.no_gain Examples.input_123
           (mkTensor [3] [1; 2; 3]%Z) (mkTensor [0] []) [] 3).
  - split; reflexivity.
  - split; reflexivity.
  - exact Hpos.
  - exact Hm.
  - reflexivity.
  - reflexivity.
  - reflexivity.
Defined.

Lemma projection_forward_cat_never_raises_witness :
  has_shape Examples.input_2x3 ([2] ++ [3]) /\
  cplx_wf Examples.input_2x3 /\
  match result (CplxMultichannelGainLayer.forward Examples.input_2x3)
          (CplxMultichannelGainLayer.mk (Examples.ramp_gain 2) true) with
  | Raise e =>
      forall p : Examples.projection_fn,
        result (CplxProjectionGainLayer.forward Examples.apply_fn Examples.input_2x3)
          (CplxProjectionGainLayer.mk
             (CplxMultichannelGainLayer.mk (Examples.ramp_gain 2) true) p)
        = Raise e
  | Ok (re_g, im_g) =>
      exists C re im,
        cat_last re_g (fst Examples.input_2x3) = Ok re /\
        cat_last im_g (snd Examples.input_2x3) = Ok im /\
        has_shape (re, im) ([2] ++ [(C + 1) * 3]) /\
        cplx_wf (re, im) /\
        forall p : Examples.projection_fn,
          result (CplxProjectionGainLayer.forward Examples.apply_fn Examples.input_2x3)
            (CplxProjectionGainLayer.mk
               (CplxMultichannelGainLayer.mk (Examples.ramp_gain 2) true) p)
          = Examples.apply_fn p (re, im)
  end.
Proof.
  assert (Hsh : has_shape Examples.input_2x3 ([2] ++ [3])) by (split; reflexivity).
  assert (Hwf : cplx_wf Examples.input_2x3) by (split; reflexivity).
  split; [exact Hsh|]. split; [exact Hwf|].
  apply (projection_forward_cat_never_raises Examples.projection_fn
           (CplxTensor Z) Examples.apply_fn (Examples.ramp_gain 2)
           Examples.input_2x3 [2] 3 Hsh Hwf (ramp_gain_wf 2)).
Defined.

Lemma projection_forward_needs_flatten_witness :
  0 < prod [2] * 3 /\
  exists msg,
    result (CplxProjectionGainLayer.forward Examples.apply_fn Examples.input_2x3)
      (CplxProjectionGainLayer.mk
         (CplxMultichannelGainLayer.mk (Examples.ramp_gain 2) false)
         Examples.identity_projection)
    = Raise (RuntimeError msg).
Proof.
  assert (Hpos : 0 < prod [2] * 3) by (simpl; lia).
  assert (Hm : cplx_modulus Examples.input_2x3
               = Ok (mkTensor [2; 3] [5; 1; 13; 10; 2; 25]%Z)) by reflexivity.
  split; [exact Hpos|].
  apply (projection_forward_needs_flatten Examples.projection_fn
           (CplxTensor Z) Examples.apply_fn (Examples.ramp_gain 2)
           Examples.identity_projection Examples.input_2x3
           (mkTensor [2; 3] [5; 1; 13; 10; 2; 25]%Z)
           (mkTensor [2; 6] (map Z.of_nat (seq 1 12))) [2] 3).
  - split; reflexivity.
  - exact Hm.
  - reflexivity.
  - exact Hpos.
  - reflexivity.
Defined.
